(** * The embed block of the editor's block library

    A shallow embedding of [blocks/library/embed/index.js]: the registry
    of URL patterns and its resolver [findBlock], the edit component
    (constructor, [componentWillMount], [componentWillUnmount],
    [getPhotoHtml], [doServerSideRender] with the two continuations of
    the oEmbed request, [render]) and the [save] function.

    JavaScript values are an inductive type, object literals are finite
    maps from property names to values, the [blockPatterns] object is an
    association list in property order, and the component's methods run
    in a small monad that threads the instance and logs every call made
    on the outside world ([setState], [setAttributes], [onReplace], the
    request, [preventDefault]).  What the module imports from its host
    (the regular-expression engine, lodash's [kebabCase], the element
    serializer, [url.parse], the i18n functions) is an interface, the
    class [Host]: the theorems hold for every implementation of it, and
    a reference implementation lets the definitions run on sample
    inputs. *)

From Stdlib Require Import Ascii String.
From stdpp Require Import base strings list gmap.

(** ** JavaScript values *)

(** The primitive values that occur in attributes, in component state
    and in the fields of an oEmbed response that the module reads
    (numbers, which it never reads, are left out). *)
Inductive jsval : Type :=
| JUndefined
| JNull
| JBool (b : bool)
| JString (s : string).

(** ToBoolean. *)
Definition truthy (v : jsval) : bool :=
  match v with
  | JUndefined | JNull => false
  | JBool b => b
  | JString s => negb (String.eqb s "")
  end.

(** ToString, as a template literal applies it. *)
Definition to_string (v : jsval) : string :=
  match v with
  | JUndefined => "undefined"
  | JNull => "null"
  | JBool true => "true"
  | JBool false => "false"
  | JString s => s
  end.

(** [lit === v] for a string literal [lit]. *)
Definition strict_eq_string (lit : string) (v : jsval) : bool :=
  match v with
  | JString s => String.eqb lit s
  | _ => false
  end.

(** An object literal or a parsed JSON object: a finite map from
    property names to values.  Reading a property that is absent gives
    [undefined]. *)
Abbreviation object := (gmap string jsval).

Definition get (o : object) (k : string) : jsval :=
  match o !! k with
  | Some v => v
  | None => JUndefined
  end.

(** Object.assign-style merge of a patch into an object; the patch wins. *)
Definition assign (o patch : object) : object := patch ∪ o.

(** ** Exceptions *)

Inductive error : Type :=
| TypeError.

Inductive result (A : Type) : Type :=
| Ok (a : A)
| Throw (e : error).
Arguments Ok {A} a.
Arguments Throw {A} e.

Definition result_bind {A B : Type} (r : result A) (k : A → result B) : result B :=
  match r with
  | Ok a => k a
  | Throw e => Throw e
  end.

(** ** React elements *)

(** The event handlers the component hands to its children. *)
Inductive handler : Type :=
| HDoServerSideRender
| HUpdateAlignment
| HSetUrl
| HSetCaption.

(** An element is its type (a tag or a component name), its props and
    its children.  [Empty] is a child that renders nothing ([false],
    [null], [undefined]). *)
#[local] Unset Elimination Schemes.
Inductive node : Type :=
| Text (s : string)
| Elem (type : string) (props : list (string * prop)) (children : list node)
| Empty
with prop : Type :=
| PVal (v : jsval)
| PFlag
| PHandler (h : handler)
| PNodes (v : option (list node))
| PInnerHTML (html : jsval).
#[local] Set Elimination Schemes.

(** ** The host interface *)

Class Host : Type := {
  (** [regexp_test pattern flags s]: is [s.match( new RegExp( pattern,
      flags ) )] truthy.  Every pattern of this module is a well-formed
      literal, so the constructor does not throw. *)
  regexp_test : string → string → string → bool;
  (** lodash's [kebabCase] on a string. *)
  kebabCase : string → string;
  (** [String.prototype.toLowerCase]. *)
  toLowerCase : string → string;
  (** The element serializer [renderToString]. *)
  renderToString : node → string;
  (** [parse( url ).host]; [None] when it is [null]. *)
  url_host : string → option string;
  (** The translation function [__]. *)
  translate : string → string;
  (** [sprintf] with one argument. *)
  sprintf : string → string → string;
}.

(** lodash's [toString]: [null] and [undefined] become the empty string. *)
Definition lodash_toString (v : jsval) : string :=
  match v with
  | JUndefined | JNull => ""
  | v => to_string v
  end.

(** lodash's [toLower]. *)
Definition toLower `{Host} (v : jsval) : string :=
  toLowerCase (lodash_toString v).

(** Is [needle] a prefix of [s]. *)
Fixpoint starts_with (needle s : string) : bool :=
  match needle, s with
  | EmptyString, _ => true
  | String a n', String b s' => if Ascii.eqb a b then starts_with n' s' else false
  | String _ _, EmptyString => false
  end.

(** Does [needle] occur in [s] ([String.prototype.indexOf] is not -1). *)
Fixpoint contains (needle s : string) : bool :=
  starts_with needle s ||
  match s with
  | EmptyString => false
  | String _ s' => contains needle s'
  end.

(** lodash's [includes( collection, value )] on a value of this model:
    a substring test on a string; anything else has no elements. *)
Definition includes (collection : jsval) (value : string) : bool :=
  match collection with
  | JString s => contains value s
  | _ => false
  end.

(** lodash's [includes] on an array of strings. *)
Definition includes_array (collection : list string) (value : string) : bool :=
  existsb (String.eqb value) collection.

(** ** The pattern registry *)

(** These embeds do not work in sandboxes. *)
Definition HOSTS_NO_PREVIEWS : list string := [ "facebook.com" ].

(** An object whose property order matters: the pairs in property
    order, no name twice.  The names this module uses as keys are never
    array indices, so property order is the order of first assignment. *)
Abbreviation ordered V := (list (string * V)).

(** The property names, as [for ... in] enumerates them. *)
Definition keys {V : Type} (o : ordered V) : list string := o.*1.

(** [o[ k ]]. *)
Fixpoint oget {V : Type} (o : ordered V) (k : string) : option V :=
  match o with
  | [] => None
  | (k', v) :: o' => if String.eqb k' k then Some v else oget o' k
  end.

(** [o[ k ] = v]: an existing property keeps its place, a new one goes
    last. *)
Fixpoint oset {V : Type} (o : ordered V) (k : string) (v : V) : ordered V :=
  match o with
  | [] => [ (k, v) ]
  | (k', v') :: o' =>
      if String.eqb k' k then (k', v) :: o'
      else (k', v') :: oset o' k v
  end.

(** An object literal [{ [k1]: v1, [k2]: v2, ... }]. *)
Definition literal {V : Type} (props : list (string * V)) : ordered V :=
  foldl (λ o kv, oset o kv.1 kv.2) [] props.

(** The [blockPatterns] object: a map of block names to URL patterns. *)
Abbreviation registry := (ordered (list string)).

Section Resolver.
Context `{Host}.

(** [patterns.some( pattern => url.match( new RegExp( pattern, 'i' ) ) )].
    Reading [match] off a value that is not a string throws. *)
Fixpoint matchesPatterns (url : jsval) (patterns : list string) : result bool :=
  match patterns with
  | [] => Ok false
  | pattern :: patterns' =>
      match url with
      | JString s =>
          if regexp_test pattern "i" s then Ok true
          else matchesPatterns url patterns'
      | _ => Throw TypeError
      end
  end.

(** The [for ... in] loop of [findBlock] over the names still to
    visit, on the registry [blockPatterns]. *)
Fixpoint findBlock_loop (blockPatterns : registry) (names : list string) (url : jsval)
  : result string :=
  match names with
  | [] => Ok "core/embed"
  | blockName :: names' =>
      match oget blockPatterns blockName with
      | Some patterns =>
          result_bind (matchesPatterns url patterns) (λ m,
            if m then Ok blockName else findBlock_loop blockPatterns names' url)
      | None => Throw TypeError
      end
  end.

(** [findBlock] on a given state of the registry. *)
Definition findBlock_in (blockPatterns : registry) (url : jsval) : result string :=
  findBlock_loop blockPatterns (keys blockPatterns) url.
(** Does some pattern of the list match the string [u]. *)
Definition some_match (u : string) (pats : list string) : Prop :=
  ∃ p, p ∈ pats ∧ regexp_test p "i" u = true.

(** Does no pattern of the list match the string [u]. *)
Definition no_match (u : string) (pats : list string) : Prop :=
  ∀ p, p ∈ pats → regexp_test p "i" u = false.

End Resolver.

(** ** Class names *)

(** An argument of [classnames]: a value, or an object from class names
    to conditions. *)
Inductive class_arg : Type :=
| ClassVal (v : jsval)
| ClassMap (m : ordered jsval).

(** The class names one argument contributes: a non-empty string
    itself, the keys of an object whose values are truthy. *)
Definition class_tokens (arg : class_arg) : list string :=
  match arg with
  | ClassVal (JString s) => if String.eqb s "" then [] else [ s ]
  | ClassVal _ => []
  | ClassMap m => (filter (λ kv, truthy kv.2 = true) m).*1
  end.

(** [classnames( ...args )]: the contributed names, joined by spaces. *)
Definition classnames (args : list class_arg) : string :=
  String.concat " " (concat (class_tokens <$> args)).

(** ** Block definitions *)

(** The argument of [getEmbedBlockSettings], as far as the edit
    component and [save] read it ([category], [keywords] and
    [transforms] are handed on to the block registration untouched). *)
Record settings_options : Type := {
  opt_title : string;
  opt_icon : string;
}.

(** The argument of [getEmbedBlockDefinition]; [def_patterns] is [None]
    when the property is absent. *)
Record definition_options : Type := {
  def_name : string;
  def_settings : settings_options;
  def_patterns : option (list string);
}.

(** What [getEmbedBlockSettings] closes over: [title], [icon] and
    [patterns], the latter defaulted to the empty array. *)
Record block_settings : Type := {
  settings_title : string;
  settings_icon : string;
  settings_patterns : list string;
}.

Definition getEmbedBlockSettings (o : settings_options) (pats : option (list string))
  : block_settings :=
  {| settings_title := opt_title o;
     settings_icon := opt_icon o;
     settings_patterns := default [] pats |}.

Record block_definition : Type := {
  name : string;
  settings : block_settings;
}.

(** [getEmbedBlockDefinition]: registers the patterns when there are
    any, and returns the definition. *)
Definition getEmbedBlockDefinition (options : definition_options) (blockPatterns : registry)
  : block_definition * registry :=
  let blockPatterns' :=
    match def_patterns options with
    | Some pats =>
        if bool_decide (0 < length pats) then oset blockPatterns (def_name options) pats
        else blockPatterns
    | None => blockPatterns
    end in
  ({| name := def_name options;
      settings := getEmbedBlockSettings (def_settings options) (def_patterns options) |},
   blockPatterns').

(** An array literal of [getEmbedBlockDefinition] calls, evaluated left
    to right. *)
Fixpoint getEmbedBlockDefinitions (l : list definition_options) (blockPatterns : registry)
  : list block_definition * registry :=
  match l with
  | [] => ([], blockPatterns)
  | options :: l' =>
      let '(d, blockPatterns1) := getEmbedBlockDefinition options blockPatterns in
      let '(ds, blockPatterns2) := getEmbedBlockDefinitions l' blockPatterns1 in
      (d :: ds, blockPatterns2)
  end.

Definition embed (n t i : string) (pats : list string) : definition_options :=
  {| def_name := n;
     def_settings := {| opt_title := t; opt_icon := i |};
     def_patterns := Some pats |}.

(** The pattern strings are the values of the source's string literals:
    in a string literal [\/] is [/] and [\.] is [.]. *)
Definition common_options : list definition_options := [
  embed "core-embed/twitter" "Twitter" "embed-post"
    [ "^https?://(www.)?twitter.com/.+" ];
  embed "core-embed/youtube" "YouTube" "embed-video"
    [ "^https?://((m|www).)?youtube.com/.+"; "youtu.be/.+" ];
  embed "core-embed/facebook" "Facebook" "embed-post"
    [ "^https?://www.facebook.com/.+" ];
  embed "core-embed/instagram" "Instagram" "embed-photo"
    [ "^https?://(www.)?instagr(.am|am.com)/.+" ];
  {| def_name := "core-embed/wordpress";
     def_settings := {| opt_title := "WordPress"; opt_icon := "embed-post" |};
     def_patterns := None |};
  embed "core-embed/soundcloud" "SoundCloud" "embed-audio"
    [ "^https?://(www.)?soundcloud.com/.+" ];
  embed "core-embed/spotify" "Spotify" "embed-audio"
    [ "^https?://(open|play).spotify.com/.+" ];
  embed "core-embed/flickr" "Flickr" "embed-photo"
    [ "^https?://(www.)?flickr.com/.+"; "flic.kr/.+" ];
  embed "core-embed/vimeo" "Vimeo" "embed-video"
    [ "^https?://(www.)?vimeo.com/.+" ]
].

Definition others_options : list definition_options := [
  embed "core-embed/animoto" "Animoto" "embed-video"
    [ "^https?://(www.)?(animoto|video214).com/.+" ];
  embed "core-embed/cloudup" "Cloudup" "embed-post"
    [ "^https?://cloudup.com/.+" ];
  embed "core-embed/collegehumor" "CollegeHumor" "embed-video"
    [ "^https?://(www.)?collegehumor.com/.+" ];
  embed "core-embed/dailymotion" "Dailymotion" "embed-video"
    [ "^https?://(www.)?dailymotion.com/.+" ];
  embed "core-embed/funnyordie" "Funny or Die" "embed-video"
    [ "(www.)?funnyordie.com/.+" ];
  embed "core-embed/hulu" "Hulu" "embed-video"
    [ "^https?://(www.)?hulu.com/.+" ];
  embed "core-embed/imgur" "Imgur" "embed-photo"
    [ "^https?://(.+.)?imgur.com/.+" ];
  embed "core-embed/issuu" "Issuu" "embed-post"
    [ "^https?://(www.)?issuu.com/.+" ];
  embed "core-embed/kickstarter" "Kickstarter" "embed-post"
    [ "^https?://(www.)?kickstarter.com/.+"; "^https?://kck.st/.+" ];
  embed "core-embed/meetup-com" "Meetup.com" "embed-post"
    [ "^https?://(www.)?meetu(.ps|p.com)/.+" ];
  embed "core-embed/mixcloud" "Mixcloud" "embed-audio"
    [ "^https?://(www.)?mixcloud.com/.+" ];
  embed "core-embed/photobucket" "Photobucket" "embed-photo"
    [ "^http://g?i*.photobucket.com/.+" ];
  embed "core-embed/polldaddy" "Polldaddy" "embed-post"
    [ "^https?://(www.)?mixcloud.com/.+" ];
  embed "core-embed/reddit" "Reddit" "embed-post"
    [ "^https?://(www.)?reddit.com/.+" ];
  embed "core-embed/reverbnation" "ReverbNation" "embed-audio"
    [ "^https?://(www.)?reverbnation.com/.+" ];
  embed "core-embed/screencast" "Screencast" "embed-video"
    [ "^https?://(www.)?screencast.com/.+" ];
  embed "core-embed/scribd" "Scribd" "embed-post"
    [ "^https?://(www.)?scribd.com/.+" ];
  embed "core-embed/slideshare" "Slideshare" "embed-post"
    [ "^https?://(.+?.)?slideshare.net/.+" ];
  embed "core-embed/smugmug" "SmugMug" "embed-photo"
    [ "^https?://(www.)?smugmug.com/.+" ];
  embed "core-embed/speaker" "Speaker" "embed-audio"
    [ "^https?://(www.)?speakerdeck.com/.+" ];
  embed "core-embed/ted" "TED" "embed-video"
    [ "^https?://(www.|embed.)?ted.com/.+" ];
  embed "core-embed/tumblr" "Tumblr" "embed-post"
    [ "^https?://(www.)?tumblr.com/.+" ];
  embed "core-embed/videopress" "VideoPress" "embed-video"
    [ "^https?://videopress.com/.+" ];
  embed "core-embed/wordpress-tv" "WordPress.tv" "embed-video"
    [ "^https?://wordpress.tv/.+" ]
].

(** The generic block, exported as [name] and [settings]. *)
Definition core_embed `{Host} : block_definition :=
  {| name := "core/embed";
     settings := getEmbedBlockSettings
                   {| opt_title := translate "Embed"; opt_icon := "embed-generic" |}
                   None |}.

(** The module's top level: [common], then [others]. *)
Definition common_run : list block_definition * registry :=
  getEmbedBlockDefinitions common_options [].
Definition common : list block_definition := common_run.1.
Definition others_run : list block_definition * registry :=
  getEmbedBlockDefinitions others_options common_run.2.
Definition others : list block_definition := others_run.1.

(** [blockPatterns] once the module is loaded. *)
Definition blockPatterns : registry := Eval vm_compute in others_run.2.

Definition findBlock `{Host} (url : jsval) : result string :=
  findBlock_in blockPatterns url.

(** The registry after the definitions [l] are evaluated on [blockPatterns]. *)
Definition registered (l : list definition_options) (blockPatterns : registry) : registry :=
  (getEmbedBlockDefinitions l blockPatterns).2.

(** Does a definition come with at least one pattern. *)
Definition has_patterns (options : definition_options) : bool :=
  match def_patterns options with
  | Some (_ :: _) => true
  | _ => false
  end.

(** The names of [l] that are not in [seen], each at its first
    occurrence. *)
Fixpoint first_occurrences (seen l : list string) : list string :=
  match l with
  | [] => []
  | x :: l' =>
      if bool_decide (x ∈ seen) then first_occurrences seen l'
      else x :: first_occurrences (seen ++ [ x ]) l'
  end.

(** Insertion order: the names of the definitions that come with
    patterns, in the order in which they are first registered. *)
Definition insertion_order (l : list definition_options) : list string :=
  first_occurrences [] (def_name <$> filter (λ o, has_patterns o = true) l).

(** ** The edit component *)

(** The block's attributes; [attr_caption] is [None] when the attribute
    is [undefined], otherwise the array of caption children. *)
Record attributes : Type := {
  attr_url : jsval;
  attr_caption : option (list node);
  attr_align : jsval;
  attr_type : jsval;
  attr_providerNameSlug : jsval;
}.

(** [this.props], without the two callbacks, which are effects below. *)
Record props : Type := {
  props_name : string;
  props_attributes : attributes;
  props_isSelected : bool;
  props_className : jsval;
}.

(** A component instance: [this.props], [this.state], [this.unmounting]. *)
Record instance : Type := {
  this_props : props;
  this_state : object;
  this_unmounting : bool;
}.

(** The value of a [createBlock( name, attributes )] call. *)
Record block : Type := createBlock {
  block_name : string;
  block_attributes : object;
}.

(** The calls a method makes on the outside world, in order. *)
Inductive effect : Type :=
| PreventDefault
| SetState (patch : object)
| SetAttributes (patch : object)
| OnReplace (b : block)
| WpEmbedAPI (url : jsval).

(** How a piece of a method body ends: it falls through with a value,
    it executes [return;], or it throws. *)
Inductive completion (A : Type) : Type :=
| Normal (a : A)
| Returned
| Thrown (e : error).
Arguments Normal {A} a.
Arguments Returned {A}.
Arguments Thrown {A} e.

(** A computation on an instance that logs its effects. *)
Definition M (A : Type) : Type := instance → completion A * instance * list effect.

Definition ret {A : Type} (a : A) : M A := λ i, (Normal a, i, []).

Definition bind {A B : Type} (m : M A) (k : A → M B) : M B := λ i,
  match m i with
  | (Normal a, i1, l1) =>
      match k a i1 with
      | (c, i2, l2) => (c, i2, l1 ++ l2)
      end
  | (Returned, i1, l1) => (Returned, i1, l1)
  | (Thrown e, i1, l1) => (Thrown e, i1, l1)
  end.

Notation "'let*' x ':=' m 'in' k" := (bind m (λ x, k))
  (at level 10, x name, m at level 100, k at level 200).
Notation "m ';;' k" := (bind m (λ _, k))
  (at level 100, k at level 200, right associativity).

(** [this]. *)
Definition this : M instance := λ i, (Normal i, i, []).

(** [return;] *)
Definition return_ {A : Type} : M A := λ i, (Returned, i, []).

(** A fallible expression inside a method. *)
Definition lift {A : Type} (r : result A) : M A := λ i,
  match r with
  | Ok a => (Normal a, i, [])
  | Throw e => (Thrown e, i, [])
  end.

Definition emit (e : effect) : M unit := λ i, (Normal (), i, [ e ]).

(** The instance with another state. *)
Definition with_state (i : instance) (state : object) : instance :=
  {| this_props := this_props i;
     this_state := state;
     this_unmounting := this_unmounting i |}.

(** [this.setState( patch )]: the patch is merged into the state. *)
Definition setState (patch : object) : M unit := λ i,
  (Normal (), with_state i (assign (this_state i) patch), [ SetState patch ]).

Definition setAttributes (patch : object) : M unit := emit (SetAttributes patch).
Definition onReplace (b : block) : M unit := emit (OnReplace b).

(** [wpEmbedAPI( url ).then( ..., ... )]: the request goes out, the
    two continuations run when it settles. *)
Definition wpEmbedAPI_then (url : jsval) : M unit := emit (WpEmbedAPI url).

(** A method body as a call: [return;] ends the call normally. *)
Definition method (body : M unit) : M unit := λ i,
  match body i with
  | (Returned, i1, l1) => (Normal (), i1, l1)
  | r => r
  end.

(** Did a run ask for the block to be replaced. *)
Definition replaces (r : completion unit * instance * list effect) : Prop :=
  ∃ b, OnReplace b ∈ r.2.

(** An array is truthy, also when it is empty. *)
Definition truthy_array {A : Type} (a : list A) : bool := true.

Definition double_quote : string := String "034"%char "".
Definition newline : string := String "010"%char "".

(** The marker of a WordPress embed:
    [class="wp-embedded-content" data-secret]. *)
Definition wp_embed_marker : string :=
  "class=" +:+ double_quote +:+ "wp-embedded-content" +:+ double_quote +:+ " data-secret".

(** The state the constructor sets. *)
Definition initial_state : object :=
  {[ "html" := JString ""; "type" := JString ""; "error" := JBool false;
     "fetching" := JBool false; "providerName" := JString "" ]}.

Definition constructor (p : props) : instance :=
  {| this_props := p; this_state := initial_state; this_unmounting := false |}.

(** [componentWillUnmount]: can't abort the fetch promise, so let it
    know we will unmount. *)
Definition componentWillUnmount : M unit := λ i,
  (Normal (),
   {| this_props := this_props i;
      this_state := this_state i;
      this_unmounting := true |},
   []).

Section Edit.
Context `{Host}.
(** What [getEmbedBlockSettings] closes over. *)
Variables (title icon : string) (patterns : list string).

(** The element [<p><img src={ photo.thumbnail_url } alt={ photo.title }
    width="100%" /></p>]. *)
Definition photoPreview (photo : object) : node :=
  Elem "p" []
    [ Elem "img"
        [ ("src", PVal (get photo "thumbnail_url"));
          ("alt", PVal (get photo "title"));
          ("width", PVal (JString "100%")) ]
        [] ].

Definition getPhotoHtml (photo : object) : string :=
  renderToString (photoPreview photo).

(** [doServerSideRender( event )], up to the request; [event] tells
    whether an event was passed. *)
Definition doServerSideRender (event : bool) : M unit :=
  method (
    (if event then emit PreventDefault else ret ()) ;;
    let* i := this in
    let url := attr_url (props_attributes (this_props i)) in
    let* own :=
      (if truthy_array patterns then lift (matchesPatterns url patterns) else ret false) in
    (if negb (truthy_array patterns) || (truthy_array patterns && negb own) then
       let* matchingBlock := lift (findBlock url) in
       if negb (String.eqb "core-embed/wordpress" (props_name (this_props i)))
          && negb (String.eqb "core/embed" matchingBlock) then
         if negb (String.eqb (props_name (this_props i)) matchingBlock) then
           onReplace (createBlock matchingBlock {[ "url" := url ]}) ;;
           return_
         else ret ()
       else ret ()
     else ret ()) ;;
    setState {[ "error" := JBool false; "fetching" := JBool true ]} ;;
    wpEmbedAPI_then url
  ).

(** [obj.html ? obj.html : obj.result]: some plugins put the embed html
    in [result]. *)
Definition html_of (obj : object) : jsval :=
  if truthy (get obj "html") then get obj "html" else get obj "result".

(** [let { type = 'rich' } = obj]: the default stands in for
    [undefined] only. *)
Definition type_of (obj : object) : jsval :=
  match get obj "type" with
  | JUndefined => JString "rich"
  | type => type
  end.

(** [kebabCase( toLower( '' !== providerName ? providerName : title ) )]
    with [providerName] the response's [provider_name]. *)
Definition providerNameSlug_of (obj : object) : string :=
  let providerName := get obj "provider_name" in
  kebabCase (toLower (if negb (strict_eq_string "" providerName)
                      then providerName else JString title)).

(** The continuation of a fulfilled request: [url] is the one the call
    of [doServerSideRender] read, [obj] the response. *)
Definition onFulfilled (url : jsval) (obj : object) : M unit :=
  method (
    let* i := this in
    (if this_unmounting i then return_ else ret ()) ;;
    let html := html_of obj in
    let type := type_of obj in
    let providerNameSlug := providerNameSlug_of obj in
    let* type :=
      (if includes html wp_embed_marker then
         (if negb (String.eqb (props_name (this_props i)) "core-embed/wordpress") then
            onReplace (createBlock "core-embed/wordpress" {[ "url" := url ]}) ;;
            return_
          else ret ()) ;;
         ret (JString "wp-embed")
       else ret type) in
    (if truthy html then
       setState {[ "html" := html; "type" := type;
                   "providerNameSlug" := JString providerNameSlug ]} ;;
       setAttributes {[ "type" := type; "providerNameSlug" := JString providerNameSlug ]}
     else if strict_eq_string "photo" type then
       setState {[ "html" := JString (getPhotoHtml obj); "type" := type;
                   "providerNameSlug" := JString providerNameSlug ]} ;;
       setAttributes {[ "type" := type; "providerNameSlug" := JString providerNameSlug ]}
     else ret ()) ;;
    setState {[ "fetching" := JBool false ]}
  ).

(** The continuation of a rejected request. *)
Definition onRejected : M unit :=
  method (setState {[ "fetching" := JBool false; "error" := JBool true ]}).

(** [componentWillMount]: if the url is already there, we're loading a
    saved block. *)
Definition componentWillMount : M unit :=
  method (
    let* i := this in
    if truthy (attr_url (props_attributes (this_props i))) then
      setState {[ "fetching" := JBool true ]} ;;
      doServerSideRender false
    else ret ()
  ).

(** [host.replace( /^www\./, '' )]. *)
Definition strip_www (host : string) : string :=
  if starts_with "www." host then String.substring 4 (String.length host - 4) host
  else host.

(** [render]: the array of the controls and one of three views. *)
Definition render (i : instance) : result (list node) :=
  let html := get (this_state i) "html" in
  let type := get (this_state i) "type" in
  let error := get (this_state i) "error" in
  let fetching := get (this_state i) "fetching" in
  let align := attr_align (props_attributes (this_props i)) in
  let url := attr_url (props_attributes (this_props i)) in
  let caption := attr_caption (props_attributes (this_props i)) in
  let isSelected := props_isSelected (this_props i) in
  let className := props_className (this_props i) in
  let controls :=
    if isSelected then
      Elem "BlockControls" [ ("key", PVal (JString "controls")) ]
        [ Elem "BlockAlignmentToolbar"
            [ ("value", PVal align); ("onChange", PHandler HUpdateAlignment) ] [] ]
    else Empty in
  if truthy fetching then
    Ok [ controls;
         Elem "div"
           [ ("key", PVal (JString "loading"));
             ("className", PVal (JString "wp-block-embed is-loading")) ]
           [ Elem "Spinner" [] [];
             Elem "p" [] [ Text (translate "Embedding…") ] ] ]
  else if negb (truthy html) then
    let label := sprintf (translate "%s URL") title in
    Ok [ controls;
         Elem "Placeholder"
           [ ("key", PVal (JString "placeholder"));
             ("icon", PVal (JString icon));
             ("label", PVal (JString label));
             ("className", PVal (JString "wp-block-embed")) ]
           [ Elem "form" [ ("onSubmit", PHandler HDoServerSideRender) ]
               [ Elem "input"
                   [ ("type", PVal (JString "url"));
                     ("value", PVal (if truthy url then url else JString ""));
                     ("className", PVal (JString "components-placeholder__input"));
                     ("aria-label", PVal (JString label));
                     ("placeholder", PVal (JString (translate "Enter URL to embed here…")));
                     ("onChange", PHandler HSetUrl) ]
                   [];
                 Elem "Button"
                   [ ("isLarge", PFlag); ("type", PVal (JString "submit")) ]
                   [ Text (translate "Embed") ];
                 if truthy error then
                   Elem "p" [ ("className", PVal (JString "components-placeholder__error")) ]
                     [ Text (translate "Sorry, we could not embed that content.") ]
                 else Empty ] ] ]
  else
    match url with
    | JString u =>
        match url_host u with
        | Some host =>
            let cannotPreview := includes_array HOSTS_NO_PREVIEWS (strip_www host) in
            let iframeTitle := sprintf (translate "Embedded content from %s") host in
            let embedWrapper :=
              if strict_eq_string "wp-embed" type then
                Elem "div"
                  [ ("className", PVal (JString "wp-block-embed__wrapper"));
                    ("dangerouslySetInnerHTML", PInnerHTML html) ]
                  []
              else
                Elem "div" [ ("className", PVal (JString "wp-block-embed__wrapper")) ]
                  [ Elem "SandBox"
                      [ ("html", PVal html);
                        ("title", PVal (JString iframeTitle));
                        ("type", PVal type) ]
                      [] ] in
            Ok [ controls;
                 Elem "figure"
                   [ ("key", PVal (JString "embed"));
                     ("className",
                      PVal (JString (classnames
                        [ ClassVal className;
                          ClassMap (literal
                            [ ("is-video", JBool (strict_eq_string "video" type)) ]) ]))) ]
                   [ if cannotPreview then
                       Elem "Placeholder"
                         [ ("icon", PVal (JString icon));
                           ("label", PVal (JString (translate "Embed URL"))) ]
                         [ Elem "p"
                             [ ("className", PVal (JString "components-placeholder__error")) ]
                             [ Elem "a" [ ("href", PVal url) ] [ Text u ] ];
                           Elem "p"
                             [ ("className", PVal (JString "components-placeholder__error")) ]
                             [ Text (translate
                                 "Previews for this are unavailable in the editor, sorry!") ] ]
                     else embedWrapper;
                     if match caption with Some (_ :: _) => true | _ => false end || isSelected
                     then
                       Elem "RichText"
                         [ ("tagName", PVal (JString "figcaption"));
                           ("placeholder", PVal (JString (translate "Write caption…")));
                           ("value", PNodes caption);
                           ("onChange", PHandler HSetCaption);
                           ("isSelected", PVal (JBool isSelected));
                           ("inlineToolbar", PFlag) ]
                         []
                     else Empty ] ]
        | None => Throw TypeError
        end
    | _ => Throw TypeError
    end.

End Edit.

(** ** The save function *)

(** [save( { attributes } )]; [None] is [null]. *)
Definition save (a : attributes) : option node :=
  let url := attr_url a in
  let caption := attr_caption a in
  let align := attr_align a in
  let type := attr_type a in
  let providerNameSlug := attr_providerNameSlug a in
  if negb (truthy url) then None
  else
    let embedClassName :=
      classnames
        [ ClassVal (JString "wp-block-embed");
          ClassMap (literal
            [ ("align" +:+ to_string align, align);
              ("is-type-" +:+ to_string type, type);
              ("is-provider-" +:+ to_string providerNameSlug, providerNameSlug) ]) ] in
    Some (Elem "figure" [ ("className", PVal (JString embedClassName)) ]
            [ Text (newline +:+ to_string url +:+ newline);
              match caption with
              | Some (c :: cs) => Elem "figcaption" [] (c :: cs)
              | _ => Empty
              end ]).

(** ** Reading a rendered view *)

(** What the frame of an embed shows. *)
Inductive frame_body : Type :=
| LinkOnly
| RawMarkup (html : jsval)
| Sandboxed (html : jsval).

(** The three views of the edit component. *)
Inductive view : Type :=
| Loading
| UrlForm (error_shown : bool)
| Frame (body : frame_body).

(** Which view an array returned by [render] is, read off its
    elements: the loading indicator is the [div] with the spinner; the
    form is the placeholder around a [form], with the error paragraph
    last or not; the frame is the [figure], around a placeholder, a
    wrapper with raw inner HTML, or a wrapper around a sandbox. *)
Definition classify (rendered : list node) : option view :=
  match rendered with
  | [ _; Elem tag _ children ] =>
      if String.eqb tag "div" then
        match children with
        | [ Elem tag1 _ _; _ ] => if String.eqb tag1 "Spinner" then Some Loading else None
        | _ => None
        end
      else if String.eqb tag "Placeholder" then
        match children with
        | [ Elem tag1 _ [ _; _; last ] ] =>
            if String.eqb tag1 "form" then
              match last with
              | Elem tag2 _ _ => if String.eqb tag2 "p" then Some (UrlForm true) else None
              | Empty => Some (UrlForm false)
              | Text _ => None
              end
            else None
        | _ => None
        end
      else if String.eqb tag "figure" then
        match children with
        | [ Elem tag1 props1 children1; _ ] =>
            if String.eqb tag1 "Placeholder" then Some (Frame LinkOnly)
            else if String.eqb tag1 "div" then
              match oget props1 "dangerouslySetInnerHTML", children1 with
              | Some (PInnerHTML html), [] => Some (Frame (RawMarkup html))
              | None, [ Elem tag2 props2 _ ] =>
                  if String.eqb tag2 "SandBox" then
                    match oget props2 "html" with
                    | Some (PVal html) => Some (Frame (Sandboxed html))
                    | _ => None
                    end
                  else None
              | _, _ => None
              end
            else None
        | _ => None
        end
      else None
  | _ => None
  end.

(** ** The life of an instance *)

(** An instance together with the requests in flight (each with the
    [url] its continuations closed over) and everything it did so far. *)
Record world : Type := {
  w_instance : instance;
  w_pending : list jsval;
  w_log : list effect;
}.

(** The requests among some effects. *)
Definition requests (l : list effect) : list jsval :=
  omap (λ e, match e with WpEmbedAPI url => Some url | _ => None end) l.

(** Running a method or a continuation in a world. *)
Definition run (m : M unit) (w : world) : world :=
  match m (w_instance w) with
  | (_, i, l) =>
      {| w_instance := i;
         w_pending := w_pending w ++ requests l;
         w_log := w_log w ++ l |}
  end.

(** The [n]-th request in flight settles. *)
Definition settle (n : nat) (w : world) : world :=
  {| w_instance := w_instance w;
     w_pending := delete n (w_pending w);
     w_log := w_log w |}.

(** The parent re-renders the instance with new props. *)
Definition receive (p : props) (w : world) : world :=
  {| w_instance := {| this_props := p;
                      this_state := this_state (w_instance w);
                      this_unmounting := this_unmounting (w_instance w) |};
     w_pending := w_pending w;
     w_log := w_log w |}.

(** The invariant of a life: while a request is in flight it is the only one, [fetching] is
    set, [error] is not, and there is no markup. *)
Definition in_flight (w : world) : Prop :=
  w_pending w = [] ∨
  (∃ url, w_pending w = [ url ]) ∧
  truthy (get (this_state (w_instance w)) "fetching") = true ∧
  truthy (get (this_state (w_instance w)) "error") = false ∧
  truthy (get (this_state (w_instance w)) "html") = false.

Section Life.
Context `{Host}.
Variables (title icon : string) (patterns : list string).

(** The view [render] returns; [None] when it throws. *)
Definition view_of (i : instance) : option view :=
  match render title icon i with
  | Ok rendered => classify rendered
  | Throw _ => None
  end.

(** Is the URL form on screen: only then can it be submitted. *)
Definition shows_form (i : instance) : bool :=
  match view_of i with
  | Some (UrlForm _) => true
  | _ => false
  end.

(** The constructor, then [componentWillMount]. *)
Definition mount (p : props) : world :=
  run (componentWillMount patterns)
    {| w_instance := constructor p; w_pending := []; w_log := [] |}.

(** What can happen to a mounted instance: the form is submitted, a
    request settles either way, the parent passes new props, the
    instance is unmounted.  A request can settle after the unmount. *)
Inductive step : world → world → Prop :=
| step_submit (w : world) :
    this_unmounting (w_instance w) = false →
    shows_form (w_instance w) = true →
    step w (run (doServerSideRender patterns true) w)
| step_fulfilled (w : world) (n : nat) (url : jsval) (obj : object) :
    w_pending w !! n = Some url →
    step w (run (onFulfilled title url obj) (settle n w))
| step_rejected (w : world) (n : nat) (url : jsval) :
    w_pending w !! n = Some url →
    step w (run onRejected (settle n w))
| step_props (w : world) (p : props) :
    this_unmounting (w_instance w) = false →
    props_name p = props_name (this_props (w_instance w)) →
    step w (receive p w)
| step_unmount (w : world) :
    this_unmounting (w_instance w) = false →
    step w (run componentWillUnmount w).

Definition reachable (p : props) (w : world) : Prop := rtc step (mount p) w.

End Life.

(** ** A reference host

    An executable implementation of [Host] on which the definitions
    above run: a matcher for the fragment of the regular-expression
    syntax the registered patterns are written in, and the other
    functions on plain ASCII input.  Strings are read as sequences of
    code units. *)

Module RegExp.

(** Abstract syntax: the empty pattern, a character, [.], the
    assertions [^] and [$], sequence, alternative, and [*].  [r+] is
    [r r*] and [r?] is [r|()]; a lazy quantifier matches the same
    strings as the greedy one. *)
Inductive re : Type :=
| Eps
| Chr (c : ascii)
| Any
| Bol
| Eol
| Seq (a b : re)
| Alt (a b : re)
| Star (a : re).

Definition is_assertion (r : re) : bool :=
  match r with
  | Bol | Eol => true
  | _ => false
  end.

Definition is_alnum (c : ascii) : bool :=
  let n := nat_of_ascii c in
  ((48 <=? n) && (n <=? 57)) || ((65 <=? n) && (n <=? 90)) || ((97 <=? n) && (n <=? 122)).

(** Characters that are not a pattern character on their own. *)
Definition is_special (c : ascii) : bool :=
  existsb (Ascii.eqb c) (list_ascii_of_string "*+?)|[]{}\").

(** A quantifier after an atom, with its optional lazy mark. *)
Definition parse_quantifier (r : re) (s : list ascii) : option (re * list ascii) :=
  let lazy (s : list ascii) :=
    match s with
    | "?"%char :: s' => s'
    | _ => s
    end in
  match s with
  | "?"%char :: s' => if is_assertion r then None else Some (Alt r Eps, lazy s')
  | "*"%char :: s' => if is_assertion r then None else Some (Star r, lazy s')
  | "+"%char :: s' => if is_assertion r then None else Some (Seq r (Star r), lazy s')
  | _ => Some (r, s)
  end.

(** A disjunction, up to the end of the input or a closing parenthesis;
    [None] on a pattern outside the fragment. *)
Fixpoint parse_disjunction (fuel : nat) (s : list ascii) : option (re * list ascii) :=
  match fuel with
  | 0 => None
  | S fuel' =>
      let parse_atom (s : list ascii) : option (re * list ascii) :=
        match s with
        | [] => None
        | "("%char :: s1 =>
            match parse_disjunction fuel' s1 with
            | Some (r, ")"%char :: s2) => Some (r, s2)
            | _ => None
            end
        | "."%char :: s1 => Some (Any, s1)
        | "^"%char :: s1 => Some (Bol, s1)
        | "$"%char :: s1 => Some (Eol, s1)
        | "\"%char :: c :: s1 => if is_alnum c then None else Some (Chr c, s1)
        | c :: s1 => if is_special c then None else Some (Chr c, s1)
        end in
      let parse_alternative :=
        fix alternative (n : nat) (acc : re) (s : list ascii) : option (re * list ascii) :=
          match s with
          | [] => Some (acc, s)
          | "|"%char :: _ => Some (acc, s)
          | ")"%char :: _ => Some (acc, s)
          | _ =>
              match n with
              | 0 => None
              | S n' =>
                  match parse_atom s with
                  | Some (r, s1) =>
                      match parse_quantifier r s1 with
                      | Some (r', s2) => alternative n' (Seq acc r') s2
                      | None => None
                      end
                  | None => None
                  end
              end
          end in
      match parse_alternative (length s) Eps s with
      | Some (r, "|"%char :: s1) =>
          match parse_disjunction fuel' s1 with
          | Some (r2, s2) => Some (Alt r r2, s2)
          | None => None
          end
      | other => other
      end
  end.

Definition parse (pattern : string) : option re :=
  let s := list_ascii_of_string pattern in
  match parse_disjunction (S (length s)) s with
  | Some (r, []) => Some r
  | _ => None
  end.

Definition upper (c : ascii) : ascii :=
  let n := nat_of_ascii c in
  if (97 <=? n) && (n <=? 122) then ascii_of_nat (n - 32) else c.

Definition lower (c : ascii) : ascii :=
  let n := nat_of_ascii c in
  if (65 <=? n) && (n <=? 90) then ascii_of_nat (n + 32) else c.

(** Two characters match, after canonicalization when case is ignored. *)
Definition same_char (ignoreCase : bool) (c d : ascii) : bool :=
  if ignoreCase then Ascii.eqb (upper c) (upper d) else Ascii.eqb c d.

Definition is_line_terminator (c : ascii) : bool :=
  Ascii.eqb c "010"%char || Ascii.eqb c "013"%char.

(** [matches r ignoreCase k start s]: does [r] match a prefix of [s]
    such that the continuation [k] accepts the rest; [start] tells
    whether [s] begins at the start of the input. *)
Fixpoint matches (r : re) (ignoreCase : bool) (k : bool → list ascii → bool)
    (start : bool) (s : list ascii) : bool :=
  match r with
  | Eps => k start s
  | Chr c =>
      match s with
      | d :: s' => same_char ignoreCase c d && k false s'
      | [] => false
      end
  | Any =>
      match s with
      | d :: s' => negb (is_line_terminator d) && k false s'
      | [] => false
      end
  | Bol => start && k start s
  | Eol =>
      match s with
      | [] => k start s
      | _ => false
      end
  | Seq a b => matches a ignoreCase (matches b ignoreCase k) start s
  | Alt a b => matches a ignoreCase k start s || matches b ignoreCase k start s
  | Star a =>
      (fix iterate (n : nat) (start : bool) (s : list ascii) : bool :=
         k start s ||
         match n with
         | 0 => false
         | S n' =>
             matches a ignoreCase
               (λ start' s', (length s' <? length s) && iterate n' start' s') start s
         end) (length s) start s
  end.

(** A match anywhere in the input. *)
Fixpoint search (r : re) (ignoreCase : bool) (start : bool) (s : list ascii) : bool :=
  matches r ignoreCase (λ _ _, true) start s ||
  match s with
  | [] => false
  | _ :: s' => search r ignoreCase false s'
  end.

Definition test (pattern flags s : string) : bool :=
  match parse pattern with
  | Some r => search r (contains "i" flags) true (list_ascii_of_string s)
  | None => false
  end.

End RegExp.

Module Reference.

Definition map_string (f : ascii → ascii) (s : string) : string :=
  string_of_list_ascii (f <$> list_ascii_of_string s).

(** [toLowerCase] on ASCII letters. *)
Definition toLowerCase (s : string) : string := map_string RegExp.lower s.

(** The words of a string, as runs of letters and digits. *)
Fixpoint words (s : list ascii) (word : list ascii) : list string :=
  let flush (ws : list string) :=
    match word with
    | [] => ws
    | _ => string_of_list_ascii (rev word) :: ws
    end in
  match s with
  | [] => flush []
  | c :: s' =>
      if RegExp.is_alnum c then words s' (c :: word)
      else flush (words s' [])
  end.

(** [kebabCase] on words of letters kept apart by other characters:
    the words in lower case, joined by hyphens. *)
Definition kebabCase (s : string) : string :=
  String.concat "-" (toLowerCase <$> words (list_ascii_of_string s) []).

(** Escaping of text and attribute values. *)
Fixpoint escape (s : string) : string :=
  match s with
  | EmptyString => ""
  | String c s' =>
      (if Ascii.eqb c "&" then "&amp;"
       else if Ascii.eqb c "<" then "&lt;"
       else if Ascii.eqb c ">" then "&gt;"
       else if Ascii.eqb c "034" then "&quot;"
       else if Ascii.eqb c "'" then "&#x27;"
       else String c "") +:+ escape s'
  end.

Definition attribute (kv : string * prop) : string :=
  match kv with
  | (k, PVal (JString v)) =>
      if String.eqb k "key" then ""
      else " " +:+ (if String.eqb k "className" then "class" else k)
           +:+ "=" +:+ double_quote +:+ escape v +:+ double_quote
  | _ => ""
  end.

Definition inner_html (ps : list (string * prop)) : option string :=
  match oget ps "dangerouslySetInnerHTML" with
  | Some (PInnerHTML v) => Some (lodash_toString v)
  | _ => None
  end.

Definition is_void (tag : string) : bool :=
  existsb (String.eqb tag) [ "img"; "input"; "br"; "hr" ].

(** Static markup: string attributes only, [className] as [class],
    void elements self-closed. *)
Fixpoint renderToString (n : node) : string :=
  match n with
  | Text s => escape s
  | Empty => ""
  | Elem tag ps cs =>
      let attrs := String.concat "" (attribute <$> ps) in
      if is_void tag then "<" +:+ tag +:+ attrs +:+ "/>"
      else
        "<" +:+ tag +:+ attrs +:+ ">"
        +:+ match inner_html ps with
            | Some raw => raw
            | None =>
                (fix children (cs : list node) : string :=
                   match cs with
                   | [] => ""
                   | c :: cs' => renderToString c +:+ children cs'
                   end) cs
            end
        +:+ "</" +:+ tag +:+ ">"
  end.

(** The part of [s] before the first character that [stop] accepts. *)
Fixpoint take_until (stop : ascii → bool) (s : string) : string :=
  match s with
  | EmptyString => ""
  | String c s' => if stop c then "" else String c (take_until stop s')
  end.

(** The part of [s] after the first occurrence of [sep], if any. *)
Fixpoint after (sep s : string) : option string :=
  if starts_with sep s then Some (String.substring (String.length sep)
                                    (String.length s - String.length sep) s)
  else
    match s with
    | EmptyString => None
    | String _ s' => after sep s'
    end.

(** The host of a URL of the form [scheme://host/...], in lower case. *)
Definition url_host (url : string) : option string :=
  match after "://" url with
  | Some rest =>
      let authority :=
        take_until (λ c, existsb (Ascii.eqb c) (list_ascii_of_string "/?#")) rest in
      Some (toLowerCase (default authority (after "@" authority)))
  | None => None
  end.

(** The first [%s] of the format replaced by the argument. *)
Fixpoint sprintf (format arg : string) : string :=
  if starts_with "%s" format then
    arg +:+ String.substring 2 (String.length format - 2) format
  else
    match format with
    | EmptyString => ""
    | String c format' => String c (sprintf format' arg)
    end.

(** The reference host; the translation function is the identity. *)
Definition host : Host :=
  Build_Host RegExp.test kebabCase toLowerCase renderToString url_host id sprintf.

End Reference.

(** ** Sample inputs *)

Module Sample.

(** Attributes with a URL and nothing else. *)
Definition attributes_of (url : jsval) : attributes :=
  {| attr_url := url;
     attr_caption := Some [];
     attr_align := JUndefined;
     attr_type := JUndefined;
     attr_providerNameSlug := JUndefined |}.

Definition props_of (name : string) (url : jsval) (selected : bool) : props :=
  {| props_name := name;
     props_attributes := attributes_of url;
     props_isSelected := selected;
     props_className := JString "wp-block-embed" |}.

Definition tweet : string := "https://twitter.com/WordPress/status/1".
Definition elsewhere : string := "https://example.com/a-post".

(** A generic embed block holding the URL of a tweet. *)
Definition generic_with_tweet : instance :=
  constructor (props_of "core/embed" (JString tweet) false).

(** A Twitter block holding a URL that no pattern matches. *)
Definition twitter_with_elsewhere : instance :=
  constructor (props_of "core-embed/twitter" (JString elsewhere) false).

(** A WordPress block holding the URL of a tweet. *)
Definition wordpress_with_tweet : instance :=
  constructor (props_of "core-embed/wordpress" (JString tweet) false).

(** The same block, selected. *)
Definition generic_selected : instance :=
  constructor (props_of "core/embed" (JString elsewhere) true).

Definition generic_with_elsewhere : instance :=
  constructor (props_of "core/embed" (JString elsewhere) false).

(** A response whose markup carries the marker of a WordPress embed. *)
Definition wordpress_response : object :=
  {[ "html" := JString ("<blockquote " +:+ wp_embed_marker +:+ "=x>A post</blockquote>");
     "type" := JString "rich";
     "provider_name" := JString "A Blog" ]}.

(** A photo without markup. *)
Definition photo_response : object :=
  {[ "type" := JString "photo";
     "thumbnail_url" := JString "https://example.com/a.jpg";
     "title" := JString "A photo";
     "provider_name" := JString "Flickr" ]}.

(** Markup and nothing else. *)
Definition bare_response : object := {[ "html" := JString "<p>A tweet</p>" ]}.

(** A WordPress block showing a post from a host on the denylist. *)
Definition wordpress_on_facebook : instance :=
  with_state
    (constructor (props_of "core-embed/wordpress"
                    (JString "https://www.facebook.com/a/posts/1") false))
    (assign initial_state
       {[ "html" := JString "<p>A post</p>"; "type" := JString "wp-embed" ]}).

(** An instance that holds markup while its URL attribute is absent. *)
Definition markup_without_url : instance :=
  with_state (constructor (props_of "core/embed" JUndefined false))
    (assign initial_state {[ "html" := JString "<p>A post</p>"; "type" := JString "rich" ]}).

(** A generic block showing markup from elsewhere. *)
Definition generic_showing : instance :=
  with_state generic_with_elsewhere
    (assign initial_state {[ "html" := JString "<p>A post</p>"; "type" := JString "rich" ]}).

(** A Flickr block. *)
Definition flickr : instance :=
  constructor (props_of "core-embed/flickr" (JString "https://flickr.com/photos/a/1") false).

End Sample.

(** Are the strings of a list pairwise different. *)
Fixpoint distinct (l : list string) : bool :=
  match l with
  | [] => true
  | x :: l' => negb (existsb (String.eqb x) l') && distinct l'
  end.

(** ** The wrapper props and the raw transform *)

(** [getEditWrapperProps( attributes )]: the [data-align] prop for the
    four alignments the editor wraps, [None] ([undefined]) otherwise. *)
Definition getEditWrapperProps (a : attributes) : option (ordered jsval) :=
  let align := attr_align a in
  if strict_eq_string "left" align || strict_eq_string "right" align
     || strict_eq_string "wide" align || strict_eq_string "full" align
  then Some [ ("data-align", align) ]
  else None.

(** A DOM node, as the raw transform reads it. *)
Record dom_node : Type := {
  nodeName : string;
  textContent : string;
}.

(** White space and line terminators, which [\s] matches and [trim]
    strips, among the code units below 256: tab, line feed, vertical
    tab, form feed, carriage return, space, no-break space. *)
Definition is_white_space (c : ascii) : bool :=
  existsb (Nat.eqb (nat_of_ascii c)) [ 9; 10; 11; 12; 13; 32; 160 ].

(** White space skipped from the left: [\s*] before a character that
    is none, and the left half of [trim]. *)
Fixpoint trim_start (s : list ascii) : list ascii :=
  match s with
  | c :: s' => if is_white_space c then trim_start s' else s
  | [] => []
  end.

Definition trim_list (s : list ascii) : list ascii :=
  rev (trim_start (rev (trim_start s))).

(** [String.prototype.trim]. *)
Definition trim (s : string) : string :=
  string_of_list_ascii (trim_list (list_ascii_of_string s)).

(** A literal piece of a pattern under the flag [i]: the rest of the
    input after it. *)
Fixpoint literal_ci (lit s : list ascii) : option (list ascii) :=
  match lit, s with
  | [], _ => Some s
  | x :: lit', c :: s' => if RegExp.same_char true x c then literal_ci lit' s' else None
  | _ :: _, [] => None
  end.

(** An optional character under the flag [i]. *)
Definition optional_ci (x : ascii) (s : list ascii) : list ascii :=
  match s with
  | c :: s' => if RegExp.same_char true x c then s' else s
  | [] => s
  end.

(** [https?:\/\/] under the flag [i]: the rest of the input after it.
    Taking the optional [s] when it is there loses nothing, as the
    next character of the pattern is a colon. *)
Definition scheme_ci (s : list ascii) : option (list ascii) :=
  match literal_ci (list_ascii_of_string "http") s with
  | Some s1 => literal_ci (list_ascii_of_string "://") (optional_ci "s" s1)
  | None => None
  end.

(** The input after the longest run of characters that are not white
    space: what [\S*] leaves when white space or the end must follow. *)
Fixpoint after_word (s : list ascii) : list ascii :=
  match s with
  | c :: s' => if is_white_space c then s else after_word s'
  | [] => []
  end.

(** [/^\s*(https?:\/\/\S+)\s*$/i.test( text )], piece by piece: white
    space, the scheme, at least one character that is not white space,
    white space up to the end.  Each piece can be taken in one way
    only, so there is nothing to backtrack over. *)
Definition url_paragraph_list (s : list ascii) : bool :=
  match scheme_ci (trim_start s) with
  | Some (c :: s') => negb (is_white_space c) && forallb is_white_space (after_word s')
  | _ => false
  end.

Definition url_paragraph (text : string) : bool :=
  url_paragraph_list (list_ascii_of_string text).

(** The raw transform of the generic block: [isMatch] and [transform]. *)
Definition raw_isMatch (node : dom_node) : bool :=
  String.eqb (nodeName node) "P" && url_paragraph (textContent node).

Definition raw_transform (node : dom_node) : block :=
  createBlock "core/embed" {[ "url" := JString (trim (textContent node)) ]}.

(** * Properties *)

(** ** Ordered objects *)

Lemma oget_elem_of {V : Type} (o : ordered V) (k : string) (v : V) :
  oget o k = Some v → (k, v) ∈ o.
Proof.
  induction o as [|[k' v'] o IH]; simpl; [done|].
  destruct (String.eqb_spec k' k) as [->|Hne].
  - intros [= ->]. left.
  - intros Hget. right. by apply IH.
Qed.

Lemma oget_None {V : Type} (o : ordered V) (k : string) :
  oget o k = None ↔ k ∉ keys o.
Proof.
  induction o as [|[k' v'] o IH]; simpl.
  - split; [intros _; apply not_elem_of_nil | done].
  - rewrite not_elem_of_cons. destruct (String.eqb_spec k' k) as [->|Hne].
    + split; [done | intros [[] _]; done].
    + rewrite IH. split; [by intros ?; split; [congruence|] | by intros [_ ?]].
Qed.

Lemma oget_NoDup {V : Type} (o : ordered V) (k : string) (v : V) :
  NoDup (keys o) → (k, v) ∈ o → oget o k = Some v.
Proof.
  induction o as [|[k' v'] o IH]; simpl.
  - intros _ Hin. by apply elem_of_nil in Hin.
  - intros Hnd Hin. apply NoDup_cons in Hnd as [Hk' Hnd].
    apply elem_of_cons in Hin as [[= -> ->]|Hin].
    + by rewrite String.eqb_refl.
    + destruct (String.eqb_spec k' k) as [->|Hne]; [|by apply IH].
      exfalso. apply Hk'. change (k ∈ keys o).
      apply list_elem_of_fmap. by exists (k, v).
Qed.

Lemma keys_oset {V : Type} (o : ordered V) (k : string) (v : V) :
  keys (oset o k v) = if bool_decide (k ∈ keys o) then keys o else keys o ++ [ k ].
Proof.
  induction o as [|[k' v'] o IH]; simpl; [done|].
  destruct (String.eqb_spec k' k) as [->|Hne].
  - rewrite bool_decide_eq_true_2; [done | left].
  - change (k' :: keys (oset o k v) = if bool_decide (k ∈ k' :: keys o)
                                       then k' :: keys o else (k' :: keys o) ++ [ k ]).
    rewrite IH.
    destruct (bool_decide_reflect (k ∈ keys o)) as [Hin|Hnin].
    + rewrite bool_decide_eq_true_2; [done | by right].
    + rewrite bool_decide_eq_false_2; [done|].
      rewrite not_elem_of_cons. split; [congruence | done].
Qed.

Lemma elem_of_oset {V : Type} (o : ordered V) (k k' : string) (v v' : V) :
  (k', v') ∈ oset o k v → (k' = k ∧ v' = v) ∨ (k', v') ∈ o.
Proof.
  induction o as [|[k0 v0] o IH]; simpl.
  - intros Hin. apply list_elem_of_singleton in Hin as [= -> ->]. by left.
  - destruct (String.eqb_spec k0 k) as [->|Hne].
    + intros Hin. apply elem_of_cons in Hin as [[= -> ->]|Hin]; [by left|].
      right. by right.
    + intros Hin. apply elem_of_cons in Hin as [[= -> ->]|Hin]; [right; left|].
      destruct (IH Hin) as [?|?]; [by left | right; by right].
Qed.

Lemma NoDup_keys_oset {V : Type} (o : ordered V) (k : string) (v : V) :
  NoDup (keys o) → NoDup (keys (oset o k v)).
Proof.
  intros Hnd. rewrite keys_oset.
  destruct (bool_decide_reflect (k ∈ keys o)) as [Hin|Hnin]; [done|].
  apply NoDup_app. split_and!; [done | | apply NoDup_singleton].
  intros x Hx Hk. apply list_elem_of_singleton in Hk as ->. done.
Qed.

(** ** Registration *)

Lemma registered_nil (reg : registry) : registered [] reg = reg.
Proof. done. Qed.

Lemma registered_cons (options : definition_options) (l : list definition_options)
    (reg : registry) :
  registered (options :: l) reg = registered l (getEmbedBlockDefinition options reg).2.
Proof.
  unfold registered. cbn [getEmbedBlockDefinitions].
  destruct (getEmbedBlockDefinition options reg) as [d reg1]. cbn [snd].
  by destruct (getEmbedBlockDefinitions l reg1).
Qed.

(** One registration: the name is set when the definition comes with
    patterns, and the registry is left alone otherwise. *)
Lemma getEmbedBlockDefinition_registry (options : definition_options) (reg : registry) :
  (getEmbedBlockDefinition options reg).2 =
    if has_patterns options
    then oset reg (def_name options) (default [] (def_patterns options))
    else reg.
Proof.
  unfold getEmbedBlockDefinition, has_patterns. simpl.
  by destruct (def_patterns options) as [[|p ps]|].
Qed.

Lemma registered_NoDup (l : list definition_options) (reg : registry) :
  NoDup (keys reg) → NoDup (keys (registered l reg)).
Proof.
  revert reg. induction l as [|options l IH]; intros reg Hnd; [done|].
  rewrite registered_cons. apply IH. rewrite getEmbedBlockDefinition_registry.
  destruct (has_patterns options); [by apply NoDup_keys_oset | done].
Qed.

Lemma registered_nonempty (l : list definition_options) (reg : registry) :
  (∀ n ps, (n, ps) ∈ reg → ps ≠ []) →
  ∀ n ps, (n, ps) ∈ registered l reg → ps ≠ [].
Proof.
  revert reg. induction l as [|options l IH]; intros reg Hreg; [done|].
  rewrite registered_cons. apply IH. rewrite getEmbedBlockDefinition_registry.
  unfold has_patterns. destruct (def_patterns options) as [[|p ps']|]; try done.
  intros n ps Hin. apply elem_of_oset in Hin as [[_ ->]|Hin]; [done | by eapply Hreg].
Qed.

Lemma registered_keys (l : list definition_options) (reg : registry) :
  keys (registered l reg) =
    keys reg ++ first_occurrences (keys reg)
                  (def_name <$> filter (λ o, has_patterns o = true) l).
Proof.
  revert reg. induction l as [|options l IH]; intros reg.
  - simpl. by rewrite app_nil_r.
  - rewrite registered_cons, IH, getEmbedBlockDefinition_registry.
    rewrite filter_cons. destruct (decide (has_patterns options = true)) as [Hp|Hp].
    + rewrite Hp, keys_oset. simpl.
      destruct (bool_decide (def_name options ∈ keys reg)); [done|].
      by rewrite <- app_assoc.
    + apply not_true_is_false in Hp. by rewrite Hp.
Qed.

(** A name all of whose definitions come without patterns is not a
    key of the registry. *)
Lemma registered_not_elem_of (l : list definition_options) (reg : registry) (n : string) :
  (∀ o, o ∈ l → def_name o = n → has_patterns o = false) →
  n ∉ keys reg → n ∉ keys (registered l reg).
Proof.
  revert reg. induction l as [|options l IH]; intros reg Hl Hreg; [done|].
  rewrite registered_cons. apply IH.
  - intros o Ho. apply Hl. by right.
  - rewrite getEmbedBlockDefinition_registry.
    destruct (has_patterns options) eqn:Hp; [|done].
    rewrite keys_oset. case_bool_decide; [done|].
    rewrite not_elem_of_app. split; [done|].
    intros Hin. apply list_elem_of_singleton in Hin.
    specialize (Hl options (list_elem_of_here _ _) (eq_sym Hin)). congruence.
Qed.

(** The module's registry is the one its definitions leave, [common]
    first and [others] second. *)
Lemma blockPatterns_registered :
  blockPatterns = registered (common_options ++ others_options) [].
Proof. vm_compute. reflexivity. Qed.

(** ** The resolver *)

Section ResolverFacts.
Context `{Host}.

Lemma matchesPatterns_nil (url : jsval) : matchesPatterns url [] = Ok false.
Proof. done. Qed.

Lemma matchesPatterns_string (u : string) (pats : list string) :
  matchesPatterns (JString u) pats = Ok (existsb (λ p, regexp_test p "i" u) pats).
Proof.
  induction pats as [|p pats IH]; simpl; [done|].
  by destruct (regexp_test p "i" u).
Qed.

Lemma existsb_some_match (u : string) (pats : list string) :
  existsb (λ p, regexp_test p "i" u) pats = true ↔ some_match u pats.
Proof.
  rewrite existsb_exists. unfold some_match.
  split; intros (p & Hp & Ht); exists p; split; try done; by apply list_elem_of_In.
Qed.

Lemma existsb_no_match (u : string) (pats : list string) :
  existsb (λ p, regexp_test p "i" u) pats = false ↔ no_match u pats.
Proof.
  rewrite <- not_true_iff_false, existsb_some_match. unfold some_match, no_match.
  split.
  - intros Hno p Hp. apply not_true_is_false. intros Ht. apply Hno. by exists p.
  - intros Hno (p & Hp & Ht). rewrite (Hno p Hp) in Ht. done.
Qed.

(** The loop over the names of a part [l] of the registry stops at the
    first entry of [l] with a matching pattern. *)
Lemma findBlock_loop_list_find (reg l : registry) (u : string) :
  (∀ n ps, (n, ps) ∈ l → oget reg n = Some ps) →
  findBlock_loop reg (keys l) (JString u) =
    Ok (match list_find (λ e, existsb (λ p, regexp_test p "i" u) e.2 = true) l with
        | Some (_, e) => e.1
        | None => "core/embed"
        end).
Proof.
  induction l as [|[n ps] l IH]; intros Hl; [done|].
  change (keys ((n, ps) :: l)) with (n :: keys l). cbn [findBlock_loop list_find].
  rewrite (Hl n ps) by left. rewrite matchesPatterns_string. cbn [result_bind snd].
  destruct (existsb (λ p, regexp_test p "i" u) ps) eqn:Hm.
  - by rewrite decide_True.
  - rewrite decide_False by done.
    rewrite IH by (intros ???; apply Hl; by right).
    by destruct (list_find _ l) as [[??]|].
Qed.

Lemma findBlock_in_list_find (reg : registry) (u : string) :
  NoDup (keys reg) →
  findBlock_in reg (JString u) =
    Ok (match list_find (λ e, existsb (λ p, regexp_test p "i" u) e.2 = true) reg with
        | Some (_, e) => e.1
        | None => "core/embed"
        end).
Proof.
  intros Hnd. apply findBlock_loop_list_find.
  intros n ps Hin. by apply oget_NoDup.
Qed.

End ResolverFacts.

Section ResolverTheorems.
Context `{Host}.

(** On a registry without a repeated name, the resolver returns the
    name of the first entry one of whose patterns matches, and the
    generic name when there is none. *)
Lemma findBlock_in_scan (reg : registry) (u : string) :
  NoDup (keys reg) →
  (∃ i name pats,
      reg !! i = Some (name, pats) ∧ some_match u pats ∧
      (∀ j name' pats', j < i → reg !! j = Some (name', pats') → no_match u pats') ∧
      findBlock_in reg (JString u) = Ok name)
  ∨ ((∀ name pats, (name, pats) ∈ reg → no_match u pats) ∧
     findBlock_in reg (JString u) = Ok "core/embed").
Proof.
  intros Hnd. rewrite (findBlock_in_list_find reg u Hnd).
  destruct (list_find _ reg) as [[i [name pats]]|] eqn:Hfind.
  - left. apply list_find_Some in Hfind as (Hi & Hm & Hfirst).
    exists i, name, pats. split_and!; [done | by apply existsb_some_match | | done].
    intros j name' pats' Hj Hlook. apply existsb_no_match.
    apply not_true_is_false. by apply (Hfirst j (name', pats')).
  - right. split; [|done]. intros name pats Hin.
    apply list_find_None in Hfind. rewrite Forall_forall in Hfind.
    apply existsb_no_match, not_true_is_false. by apply (Hfind (name, pats)).
Qed.

(** C1.  Whatever definitions the module evaluates, and for every URL
    string: the names of the registry stand in insertion order, and
    [findBlock] on that registry returns the name of the first entry
    (the one registered first) one of whose patterns matches the URL
    as a regular expression with the flag [i], and ["core/embed"] when
    no pattern of any entry matches.  The module's own [findBlock] is
    this resolver on the registry that [common] and [others] leave. *)
Theorem findBlock_first_match (l : list definition_options) (u : string) :
  let reg := registered l [] in
  keys reg = insertion_order l ∧
  ((∃ i name pats,
       reg !! i = Some (name, pats) ∧ some_match u pats ∧
       (∀ j name' pats', j < i → reg !! j = Some (name', pats') → no_match u pats') ∧
       findBlock_in reg (JString u) = Ok name)
   ∨ ((∀ name pats, (name, pats) ∈ reg → no_match u pats) ∧
      findBlock_in reg (JString u) = Ok "core/embed")) ∧
  findBlock (JString u) =
    findBlock_in (registered (common_options ++ others_options) []) (JString u).
Proof.
  intros reg. split_and!.
  - unfold reg. by rewrite registered_keys.
  - apply findBlock_in_scan, registered_NoDup. apply NoDup_nil_2.
  - unfold findBlock. by rewrite blockPatterns_registered.
Qed.

(** The same on the module's own registry. *)
Lemma findBlock_scan (u : string) :
  keys blockPatterns = insertion_order (common_options ++ others_options) ∧
  ((∃ i name pats,
       blockPatterns !! i = Some (name, pats) ∧ some_match u pats ∧
       (∀ j name' pats', j < i → blockPatterns !! j = Some (name', pats') →
                         no_match u pats') ∧
       findBlock (JString u) = Ok name)
   ∨ ((∀ name pats, (name, pats) ∈ blockPatterns → no_match u pats) ∧
      findBlock (JString u) = Ok "core/embed")).
Proof.
  split; [by vm_compute|].
  apply findBlock_in_scan. rewrite blockPatterns_registered.
  apply registered_NoDup, NoDup_nil_2.
Qed.

(** The resolver on the reference host: a tweet, a video address in
    capitals, an address that matches nothing, an address of the two
    blocks that share a pattern, and a value that is not a string. *)
Example findBlock_samples :
  @findBlock Reference.host (JString "https://twitter.com/WordPress/status/1")
    = Ok "core-embed/twitter" ∧
  @findBlock Reference.host (JString "HTTPS://WWW.YOUTUBE.COM/watch?v=1")
    = Ok "core-embed/youtube" ∧
  @findBlock Reference.host (JString "https://example.com/a-post") = Ok "core/embed" ∧
  @findBlock Reference.host (JString "https://www.mixcloud.com/a/b/")
    = Ok "core-embed/mixcloud" ∧
  @findBlock Reference.host JUndefined = Throw TypeError.
Proof. split_and!; vm_compute; reflexivity. Qed.

(** A string URL never makes the resolver throw. *)
Lemma findBlock_total (u : string) : ∃ name, findBlock (JString u) = Ok name.
Proof.
  destruct (findBlock_scan u) as [_ [(i & name & pats & _ & _ & _ & Hf)|[_ Hf]]]; eauto.
Qed.

(** The two blocks that share one pattern: the second is never chosen. *)
Lemma findBlock_never_polldaddy (u : string) :
  findBlock (JString u) ≠ Ok "core-embed/polldaddy".
Proof.
  destruct (findBlock_scan u) as [_ [(i & name & pats & Hi & Hm & Hfirst & Hf)|[_ Hf]]];
    rewrite Hf; [|done].
  intros [= ->].
  assert (i = 20 ∧ pats = [ "^https?://(www.)?mixcloud.com/.+" ]) as [-> ->].
  { do 21 (destruct i as [|i]; [by simplify_eq/= |]).
    do 13 (destruct i as [|i]; [by simplify_eq/= |]). done. }
  destruct Hm as (p & Hp & Ht). apply list_elem_of_singleton in Hp as ->.
  assert (no_match u [ "^https?://(www.)?mixcloud.com/.+" ]) as Hno.
  { by apply (Hfirst 18 "core-embed/mixcloud"); [lia|]. }
  rewrite (Hno _ (list_elem_of_here _ _)) in Ht. done.
Qed.

End ResolverTheorems.

Section ZeroPatterns.
Context `{Host}.

(** A name the resolver returns is the generic one or a registered one. *)
Lemma findBlock_in_elem_of (reg : registry) (u n : string) :
  NoDup (keys reg) → findBlock_in reg (JString u) = Ok n →
  n ∈ keys reg ∨ (n = "core/embed" ∧ ∀ name pats, (name, pats) ∈ reg → no_match u pats).
Proof.
  intros Hnd Hf.
  destruct (findBlock_in_scan reg u Hnd)
    as [(i & name & pats & Hi & _ & _ & Hf')|[Hno Hf']];
    rewrite Hf in Hf'; injection Hf' as ->.
  - left. apply list_elem_of_fmap. exists (name, pats).
    split; [done | by eapply list_elem_of_lookup_2].
  - by right.
Qed.

(** C2.  A block all of whose definitions come with no pattern (the
    list absent or empty) is not stored in the registry by any of them,
    is not a name of the registry, and is returned by [findBlock] only
    as the default, when it is ["core/embed"] and no entry matches;
    every entry of the registry has at least one pattern; and no URL
    matches the empty list of patterns. *)
Theorem zero_patterns_never_matched (l : list definition_options) (n : string) :
  (∀ o, o ∈ l → def_name o = n → def_patterns o = None ∨ def_patterns o = Some []) →
  let reg := registered l [] in
  (∀ o reg', o ∈ l → def_name o = n → (getEmbedBlockDefinition o reg').2 = reg') ∧
  (n ∉ keys reg) ∧
  (∀ u, findBlock_in reg (JString u) = Ok n →
        n = "core/embed" ∧ ∀ name pats, (name, pats) ∈ reg → no_match u pats) ∧
  (∀ name pats, (name, pats) ∈ reg → pats ≠ []) ∧
  (∀ url, matchesPatterns url [] = Ok false).
Proof.
  intros Hzero reg.
  assert (∀ o, o ∈ l → def_name o = n → has_patterns o = false) as Hhas.
  { intros o Ho Hn. unfold has_patterns. by destruct (Hzero o Ho Hn) as [-> | ->]. }
  assert (n ∉ keys reg) as Hnot.
  { apply registered_not_elem_of; [done | apply not_elem_of_nil]. }
  split_and!.
  - intros o reg' Ho Hn. rewrite getEmbedBlockDefinition_registry.
    by rewrite (Hhas o Ho Hn).
  - done.
  - intros u Hf. apply findBlock_in_elem_of in Hf as [Hin|Hdefault]; [done | done |].
    apply registered_NoDup, NoDup_nil_2.
  - apply registered_nonempty. intros ?? Hin. by apply elem_of_nil in Hin.
  - apply matchesPatterns_nil.
Qed.

End ZeroPatterns.

(** The WordPress block is the one definition of the module without
    patterns. *)
Lemma wordpress_zero_patterns (o : definition_options) :
  o ∈ common_options ++ others_options → def_name o = "core-embed/wordpress" →
  def_patterns o = None ∨ def_patterns o = Some [].
Proof.
  intros Ho Hn. unfold common_options, others_options in Ho. simpl in Ho.
  repeat (apply elem_of_cons in Ho as [->|Ho]; [first [by left | discriminate Hn]|]).
  by apply elem_of_nil in Ho.
Qed.

Lemma zero_patterns_never_matched_witness :
  ("core-embed/wordpress" ∉ keys blockPatterns) ∧
  (∀ u, @findBlock Reference.host (JString u) = Ok "core-embed/wordpress" →
        "core-embed/wordpress" = "core/embed" ∧
        ∀ name pats, (name, pats) ∈ blockPatterns →
                     @no_match Reference.host u pats) ∧
  (∀ name pats, (name, pats) ∈ blockPatterns → pats ≠ []).
Proof.
  pose proof (@zero_patterns_never_matched Reference.host
                (common_options ++ others_options) "core-embed/wordpress"
                wordpress_zero_patterns) as (_ & Hnot & Hscan & Hne & _).
  rewrite <- blockPatterns_registered in Hnot, Hscan, Hne. done.
Defined.

(** ** Entering the fetching state *)

(** Unfolds a method down to its effects. *)
Ltac run_method :=
  unfold method, bind, ret, this, return_, lift, emit, setState, setAttributes,
    onReplace, wpEmbedAPI_then, truthy_array;
  cbn [negb orb andb app fst snd].

Section Fetching.
Context `{Host}.
Variable patterns : list string.

(** C3, as amended.  [doServerSideRender] on a URL string: it replaces
    the block by the resolved one, without a state change and without
    a request, exactly when no pattern of the block's own matches the
    URL, the block is not ["core-embed/wordpress"], the resolved name
    is not ["core/embed"], and the resolved name is not the block's
    own; in every other case it sets [error] to false and [fetching]
    to true and sends the request. *)
Theorem doServerSideRender_replace_or_fetch (event : bool) (i : instance) (u : string) :
  attr_url (props_attributes (this_props i)) = JString u →
  ∃ matchingBlock,
    findBlock (JString u) = Ok matchingBlock ∧
    let name := props_name (this_props i) in
    let before := if event then [ PreventDefault ] else [] in
    let replace :=
      no_match u patterns ∧ name ≠ "core-embed/wordpress" ∧
      matchingBlock ≠ "core/embed" ∧ matchingBlock ≠ name in
    (replace →
     doServerSideRender patterns event i =
       (Normal (), i,
        before ++ [ OnReplace (createBlock matchingBlock {[ "url" := JString u ]}) ])) ∧
    (¬ replace →
     doServerSideRender patterns event i =
       (Normal (),
        with_state i (assign (this_state i)
                        {[ "error" := JBool false; "fetching" := JBool true ]}),
        before ++ [ SetState {[ "error" := JBool false; "fetching" := JBool true ]};
                    WpEmbedAPI (JString u) ])).
Proof.
  intros Hurl. destruct (findBlock_total u) as [matchingBlock Hfind].
  exists matchingBlock. split; [done|]. intros name before replace.
  assert (doServerSideRender patterns event i =
    if negb (existsb (λ p, regexp_test p "i" u) patterns)
       && negb (String.eqb "core-embed/wordpress" name)
       && negb (String.eqb "core/embed" matchingBlock)
       && negb (String.eqb name matchingBlock)
    then (Normal (), i,
          before ++ [ OnReplace (createBlock matchingBlock {[ "url" := JString u ]}) ])
    else (Normal (),
          with_state i (assign (this_state i)
                          {[ "error" := JBool false; "fetching" := JBool true ]}),
          before ++ [ SetState {[ "error" := JBool false; "fetching" := JBool true ]};
                      WpEmbedAPI (JString u) ])) as ->.
  { unfold doServerSideRender, before, name.
    destruct event; run_method;
      rewrite Hurl, matchesPatterns_string, Hfind;
      destruct (existsb _ patterns),
        (String.eqb "core-embed/wordpress" _), (String.eqb "core/embed" matchingBlock),
        (String.eqb _ matchingBlock); reflexivity. }
  assert (negb (existsb (λ p, regexp_test p "i" u) patterns)
          && negb (String.eqb "core-embed/wordpress" name)
          && negb (String.eqb "core/embed" matchingBlock)
          && negb (String.eqb name matchingBlock) = true ↔ replace) as Hiff.
  { unfold replace. rewrite !andb_true_iff, !negb_true_iff, existsb_no_match.
    rewrite !String.eqb_neq. intuition congruence. }
  split.
  - intros Hr. apply Hiff in Hr. by rewrite Hr.
  - intros Hr. rewrite <- Hiff in Hr. apply not_true_is_false in Hr. by rewrite Hr.
Qed.

End Fetching.

Lemma doServerSideRender_replace_or_fetch_witness :
  @doServerSideRender Reference.host [] true Sample.generic_with_tweet =
    (Normal (), Sample.generic_with_tweet,
     [ PreventDefault;
       OnReplace (createBlock "core-embed/twitter" {[ "url" := JString Sample.tweet ]}) ]).
Proof.
  destruct (@doServerSideRender_replace_or_fetch Reference.host [] true
              Sample.generic_with_tweet Sample.tweet eq_refl)
    as (matchingBlock & Hfind & Hreplace & _).
  vm_compute in Hfind. injection Hfind as <-.
  apply Hreplace. split_and!; [|done..].
  intros p Hp. by apply elem_of_nil in Hp.
Defined.

(** What the three sample blocks do, on the reference host. *)
Lemma doServerSideRender_samples :
  @doServerSideRender Reference.host [] true Sample.generic_with_tweet =
    (Normal (), Sample.generic_with_tweet,
     [ PreventDefault;
       OnReplace (createBlock "core-embed/twitter" {[ "url" := JString Sample.tweet ]}) ]) ∧
  (@doServerSideRender Reference.host [ "^https?://(www.)?twitter.com/.+" ] true
     Sample.twitter_with_elsewhere).2 =
    [ PreventDefault;
      SetState {[ "error" := JBool false; "fetching" := JBool true ]};
      WpEmbedAPI (JString Sample.elsewhere) ] ∧
  (@doServerSideRender Reference.host [] true Sample.wordpress_with_tweet).2 =
    [ PreventDefault;
      SetState {[ "error" := JBool false; "fetching" := JBool true ]};
      WpEmbedAPI (JString Sample.tweet) ].
Proof. split_and!; vm_compute; reflexivity. Qed.

(** C3 as stated fails, on the reference host.  With the resolved name
    and the block's own name as the statement has them:
    a generic block that holds the URL of a tweet is replaced by the
    Twitter block, although the current block is the generic one;
    a Twitter block that holds a URL matching no pattern is not
    replaced, although the resolved name, the generic one, differs
    from its own; and a WordPress block that holds the URL of a tweet
    is not replaced either. *)
Lemma doServerSideRender_not_as_stated :
  (@findBlock Reference.host (JString Sample.tweet) = Ok "core-embed/twitter" ∧
   ¬ (replaces (@doServerSideRender Reference.host [] true Sample.generic_with_tweet)
      ↔ "core-embed/twitter" ≠ "core/embed" ∧ "core/embed" ≠ "core/embed")) ∧
  (@findBlock Reference.host (JString Sample.elsewhere) = Ok "core/embed" ∧
   ¬ (replaces (@doServerSideRender Reference.host [ "^https?://(www.)?twitter.com/.+" ]
                  true Sample.twitter_with_elsewhere)
      ↔ "core/embed" ≠ "core-embed/twitter" ∧ "core-embed/twitter" ≠ "core/embed")) ∧
  ¬ (replaces (@doServerSideRender Reference.host [] true Sample.wordpress_with_tweet)
     ↔ "core-embed/twitter" ≠ "core-embed/wordpress" ∧ "core-embed/wordpress" ≠ "core/embed").
Proof.
  destruct doServerSideRender_samples as (Hgeneric & Htwitter & Hwordpress).
  split_and!; try (vm_compute; reflexivity).
  - intros [Hto _]. destruct Hto as [_ Hname]; [|by apply Hname].
    rewrite Hgeneric. eexists. apply list_elem_of_further, list_elem_of_here.
  - intros [_ Hfrom]. destruct Hfrom as [b Hb]; [split; discriminate|].
    rewrite Htwitter in Hb.
    repeat (apply elem_of_cons in Hb as [[=]|Hb]). by apply elem_of_nil in Hb.
  - intros [_ Hfrom]. destruct Hfrom as [b Hb]; [split; discriminate|].
    rewrite Hwordpress in Hb.
    repeat (apply elem_of_cons in Hb as [[=]|Hb]). by apply elem_of_nil in Hb.
Qed.

(** ** Reading the state off a view *)

Section ViewFacts.
Context `{Host}.
Variables (title icon : string).

(** [render] reads the state and, of the props, the attributes,
    [isSelected] and [className]. *)
Lemma render_reads (i i' : instance) :
  this_state i' = this_state i →
  props_attributes (this_props i') = props_attributes (this_props i) →
  props_isSelected (this_props i') = props_isSelected (this_props i) →
  props_className (this_props i') = props_className (this_props i) →
  render title icon i' = render title icon i.
Proof. intros Hs Ha Hsel Hc. unfold render. by rewrite Hs, Ha, Hsel, Hc. Qed.

(** The three cases of [render], read as views. *)
Lemma view_of_loading (i : instance) :
  truthy (get (this_state i) "fetching") = true → view_of title icon i = Some Loading.
Proof. intros Hf. unfold view_of, render. by rewrite Hf. Qed.

Lemma view_of_form (i : instance) :
  truthy (get (this_state i) "fetching") = false →
  truthy (get (this_state i) "html") = false →
  view_of title icon i = Some (UrlForm (truthy (get (this_state i) "error"))).
Proof.
  intros Hf Hh. unfold view_of, render. rewrite Hf, Hh. cbn [negb].
  by destruct (truthy (get (this_state i) "error")).
Qed.

Lemma view_of_frame (i : instance) (u host : string) :
  truthy (get (this_state i) "fetching") = false →
  truthy (get (this_state i) "html") = true →
  attr_url (props_attributes (this_props i)) = JString u →
  url_host u = Some host →
  view_of title icon i =
    Some (Frame (if includes_array HOSTS_NO_PREVIEWS (strip_www host) then LinkOnly
                 else if strict_eq_string "wp-embed" (get (this_state i) "type")
                      then RawMarkup (get (this_state i) "html")
                      else Sandboxed (get (this_state i) "html"))).
Proof.
  intros Hf Hh Hu Hhost. unfold view_of, render.
  rewrite Hf, Hh, Hu, Hhost. cbn [negb].
  destruct (includes_array HOSTS_NO_PREVIEWS (strip_www host)); [done|].
  by destruct (strict_eq_string "wp-embed" (get (this_state i) "type")).
Qed.

End ViewFacts.

(** ** The continuations of the request *)

Lemma get_assign (o patch : object) (k : string) :
  get (assign o patch) k =
    match patch !! k with
    | Some v => v
    | None => get o k
    end.
Proof.
  unfold get, assign. rewrite lookup_union.
  by destruct (patch !! k), (o !! k).
Qed.

Lemma contains_nonempty (needle s : string) :
  needle ≠ "" → contains needle s = true → s ≠ "".
Proof. intros Hne Hc ->. by destruct needle. Qed.

(** A payload with the marker in it is a non-empty string. *)
Lemma includes_truthy (v : jsval) : includes v wp_embed_marker = true → truthy v = true.
Proof.
  destruct v as [| |b|s]; simpl; try done.
  intros Hc. apply negb_true_iff, String.eqb_neq.
  by apply (contains_nonempty wp_embed_marker).
Qed.

Lemma includes_falsy (v : jsval) : truthy v = false → includes v wp_embed_marker = false.
Proof.
  intros Hf. apply not_true_is_false. intros Hi.
  apply includes_truthy in Hi. congruence.
Qed.

Section Continuations.
Context `{Host}.
Variable title : string.

(** The fulfilled continuation on an instance that is still mounted,
    case by case. *)
Lemma onFulfilled_mounted (url : jsval) (obj : object) (i : instance) :
  this_unmounting i = false →
  onFulfilled title url obj i =
    let slug := JString (providerNameSlug_of title obj) in
    let done_ : object := {[ "fetching" := JBool false ]} in
    let shown (html type : jsval) :=
      let patch : object := {[ "html" := html; "type" := type; "providerNameSlug" := slug ]} in
      (Normal (),
       with_state i (assign (assign (this_state i) patch) done_),
       [ SetState patch;
         SetAttributes {[ "type" := type; "providerNameSlug" := slug ]};
         SetState done_ ]) in
    if includes (html_of obj) wp_embed_marker then
      if String.eqb (props_name (this_props i)) "core-embed/wordpress"
      then shown (html_of obj) (JString "wp-embed")
      else (Normal (), i,
            [ OnReplace (createBlock "core-embed/wordpress" {[ "url" := url ]}) ])
    else if truthy (html_of obj) then shown (html_of obj) (type_of obj)
    else if strict_eq_string "photo" (type_of obj)
    then shown (JString (getPhotoHtml obj)) (type_of obj)
    else (Normal (), with_state i (assign (this_state i) done_), [ SetState done_ ]).
Proof.
  intros Hm. unfold onFulfilled. run_method. rewrite Hm.
  destruct (includes (html_of obj) wp_embed_marker) eqn:Hinc.
  - rewrite (includes_truthy _ Hinc).
    by destruct (String.eqb (props_name (this_props i)) "core-embed/wordpress").
  - destruct (truthy (html_of obj)); [done|].
    by destruct (strict_eq_string "photo" (type_of obj)).
Qed.

(** The fulfilled continuation after the unmount: nothing happens. *)
Lemma onFulfilled_unmounted (url : jsval) (obj : object) (i : instance) :
  this_unmounting i = true → onFulfilled title url obj i = (Normal (), i, []).
Proof. intros Hu. unfold onFulfilled. run_method. by rewrite Hu. Qed.

(** The rejected continuation does not look at [this.unmounting]. *)
Lemma onRejected_run (i : instance) :
  onRejected i =
    (Normal (),
     with_state i (assign (this_state i) {[ "fetching" := JBool false; "error" := JBool true ]}),
     [ SetState {[ "fetching" := JBool false; "error" := JBool true ]} ]).
Proof. reflexivity. Qed.

End Continuations.

(** C4, at the failing input.  On an instance that has been unmounted,
    the rejected continuation still calls [setState]: the state
    changes, [error] becomes true.  The fulfilled continuation has the
    guard ([onFulfilled_unmounted]), the rejected one does not. *)
Theorem onRejected_after_unmount (i : instance) :
  let unmounted := (componentWillUnmount i).1.2 in
  this_unmounting unmounted = true ∧
  onRejected unmounted =
    (Normal (),
     with_state unmounted
       (assign (this_state i) {[ "fetching" := JBool false; "error" := JBool true ]}),
     [ SetState {[ "fetching" := JBool false; "error" := JBool true ]} ]) ∧
  get (this_state (onRejected unmounted).1.2) "error" = JBool true.
Proof.
  intros unmounted. split_and!; [done | done |].
  rewrite onRejected_run. cbn [fst snd with_state this_state]. by rewrite get_assign.
Qed.

Section ResponseFields.
Context `{Host}.
Variable title : string.

(** A response without [type] counts as rich content. *)
Lemma type_of_absent (obj : object) : type_of (delete "type" obj) = JString "rich".
Proof. unfold type_of, get. by rewrite lookup_delete_eq. Qed.

(** The markup is [html] when that is truthy, [result] otherwise. *)
Lemma html_of_cases (obj : object) :
  (truthy (get obj "html") = true → html_of obj = get obj "html") ∧
  (truthy (get obj "html") = false → html_of obj = get obj "result").
Proof. unfold html_of. by destruct (truthy (get obj "html")). Qed.

(** An empty provider name falls back on the title. *)
Lemma providerNameSlug_of_empty (obj : object) :
  providerNameSlug_of title (<["provider_name" := JString ""]> obj) =
    kebabCase (toLower (JString title)).
Proof. unfold providerNameSlug_of, get. by rewrite lookup_insert_eq. Qed.

(** A provider name that is given is used. *)
Lemma providerNameSlug_of_given (obj : object) (providerName : string) :
  providerName ≠ "" →
  providerNameSlug_of title (<["provider_name" := JString providerName]> obj) =
    kebabCase (toLower (JString providerName)).
Proof.
  intros Hne. unfold providerNameSlug_of, get. rewrite lookup_insert_eq. simpl.
  destruct providerName; [done|]. done.
Qed.

End ResponseFields.

(** C5, at the failing input.  For a response without the field
    [provider_name] the slug is [kebabCase( toLower( undefined ) )],
    which is [kebabCase] of the empty string, whatever the title; on
    the reference host, a Twitter block that receives markup and
    nothing else stores the empty slug, where the title would give
    ["twitter"].  The type of that response is ["rich"] and its markup
    the field [html]. *)
Theorem providerNameSlug_without_provider_name :
  (∀ (H : Host) (title : string) (obj : object),
     providerNameSlug_of title (delete "provider_name" obj) = kebabCase (toLowerCase "")) ∧
  @providerNameSlug_of Reference.host "Twitter" Sample.bare_response = "" ∧
  @kebabCase Reference.host (@toLower Reference.host (JString "Twitter")) = "twitter" ∧
  type_of Sample.bare_response = JString "rich" ∧
  html_of Sample.bare_response = JString "<p>A tweet</p>" ∧
  (@onFulfilled Reference.host "Twitter" (JString Sample.tweet) Sample.bare_response
     Sample.twitter_with_elsewhere).2 =
    [ SetState {[ "html" := JString "<p>A tweet</p>"; "type" := JString "rich";
                  "providerNameSlug" := JString "" ]};
      SetAttributes {[ "type" := JString "rich"; "providerNameSlug" := JString "" ]};
      SetState {[ "fetching" := JBool false ]} ].
Proof.
  split_and!; try by vm_compute.
  intros H title obj. unfold providerNameSlug_of, get. by rewrite lookup_delete_eq.
Qed.

Section Marker.
Context `{Host}.
Variable title : string.

(** C6.  On an instance that is still mounted, a response whose markup
    contains the marker of a WordPress embed: a block other than
    ["core-embed/wordpress"] asks to be replaced by that block, with
    the URL, and neither changes its state nor writes attributes; the
    WordPress block itself stores the markup with the type
    ["wp-embed"], whatever type the response gave, writes that type
    and the slug to the attributes, and clears [fetching]; [render]
    then shows the markup raw, for a URL whose host is not on the
    denylist. *)
Theorem onFulfilled_wordpress_marker (url : jsval) (obj : object) (i : instance) :
  this_unmounting i = false →
  includes (html_of obj) wp_embed_marker = true →
  (props_name (this_props i) ≠ "core-embed/wordpress" →
   onFulfilled title url obj i =
     (Normal (), i, [ OnReplace (createBlock "core-embed/wordpress" {[ "url" := url ]}) ])) ∧
  (props_name (this_props i) = "core-embed/wordpress" →
   let slug := JString (providerNameSlug_of title obj) in
   let patch : object :=
     {[ "html" := html_of obj; "type" := JString "wp-embed"; "providerNameSlug" := slug ]} in
   let state := assign (assign (this_state i) patch) {[ "fetching" := JBool false ]} in
   onFulfilled title url obj i =
     (Normal (), with_state i state,
      [ SetState patch;
        SetAttributes {[ "type" := JString "wp-embed"; "providerNameSlug" := slug ]};
        SetState {[ "fetching" := JBool false ]} ]) ∧
   get state "type" = JString "wp-embed" ∧
   get state "html" = html_of obj ∧
   get state "fetching" = JBool false ∧
   (∀ icon u host,
      attr_url (props_attributes (this_props i)) = JString u →
      url_host u = Some host →
      includes_array HOSTS_NO_PREVIEWS (strip_www host) = false →
      view_of title icon (with_state i state) = Some (Frame (RawMarkup (html_of obj))))).
Proof.
  intros Hm Hinc. rewrite (onFulfilled_mounted title url obj i Hm), Hinc.
  cbv zeta. split.
  - intros Hname. apply String.eqb_neq in Hname. by rewrite Hname.
  - intros Hname. rewrite Hname, String.eqb_refl.
    split_and!; [done | by rewrite !get_assign.. |].
    intros icon u host Hu Hhost Hdeny.
    rewrite (view_of_frame title icon _ u host);
      cbn [with_state this_state this_props]; rewrite ?get_assign; try done.
    + by rewrite Hdeny.
    + cbn. by apply includes_truthy.
Qed.

End Marker.

Lemma onFulfilled_wordpress_marker_witness :
  @onFulfilled Reference.host "Embed" (JString Sample.elsewhere) Sample.wordpress_response
    Sample.generic_with_elsewhere =
  (Normal (), Sample.generic_with_elsewhere,
   [ OnReplace (createBlock "core-embed/wordpress" {[ "url" := JString Sample.elsewhere ]}) ]).
Proof.
  apply (@onFulfilled_wordpress_marker Reference.host "Embed" (JString Sample.elsewhere)
           Sample.wordpress_response Sample.generic_with_elsewhere);
    [reflexivity | by vm_compute | done].
Defined.

Section Photo.
Context `{Host}.
Variable title : string.

(** C7, as amended.  On an instance that is still mounted, a response
    of type ["photo"] without markup: the markup stored is the
    serialized element [<p><img src alt width="100%"/></p>] with the
    response's [thumbnail_url] as [src] and its [title] as [alt]; the
    markup, the type and the slug go to the state, then [fetching] is
    cleared; the attributes receive the type and the slug only. *)
Theorem onFulfilled_photo (url : jsval) (obj : object) (i : instance) :
  this_unmounting i = false →
  type_of obj = JString "photo" →
  truthy (html_of obj) = false →
  let markup :=
    JString (renderToString
      (Elem "p" []
         [ Elem "img"
             [ ("src", PVal (get obj "thumbnail_url"));
               ("alt", PVal (get obj "title"));
               ("width", PVal (JString "100%")) ]
             [] ])) in
  let slug := JString (providerNameSlug_of title obj) in
  let patch : object :=
    {[ "html" := markup; "type" := JString "photo"; "providerNameSlug" := slug ]} in
  let written : object := {[ "type" := JString "photo"; "providerNameSlug" := slug ]} in
  onFulfilled title url obj i =
    (Normal (),
     with_state i (assign (assign (this_state i) patch) {[ "fetching" := JBool false ]}),
     [ SetState patch; SetAttributes written; SetState {[ "fetching" := JBool false ]} ]) ∧
  dom written = {[ "type"; "providerNameSlug" ]}.
Proof.
  intros Hm Htype Hhtml. cbv zeta. split.
  - rewrite (onFulfilled_mounted title url obj i Hm).
    rewrite (includes_falsy _ Hhtml), Hhtml, Htype. reflexivity.
  - by rewrite dom_insert_L, dom_singleton_L.
Qed.

End Photo.

(** The run on the sample photo, evaluated. *)
Lemma onFulfilled_photo_run :
  @onFulfilled Reference.host "Flickr" (JString "https://flickr.com/photos/a/1")
    Sample.photo_response Sample.flickr =
  (Normal (),
   with_state Sample.flickr
     (assign (assign initial_state
        {[ "html" := JString (@getPhotoHtml Reference.host Sample.photo_response);
           "type" := JString "photo";
           "providerNameSlug" := JString "flickr" ]})
        {[ "fetching" := JBool false ]}),
   [ SetState
       {[ "html" := JString (@getPhotoHtml Reference.host Sample.photo_response);
          "type" := JString "photo";
          "providerNameSlug" := JString "flickr" ]};
     SetAttributes {[ "type" := JString "photo"; "providerNameSlug" := JString "flickr" ]};
     SetState {[ "fetching" := JBool false ]} ]).
Proof. by vm_compute. Qed.

Lemma onFulfilled_photo_witness :
  @onFulfilled Reference.host "Flickr" (JString "https://flickr.com/photos/a/1")
    Sample.photo_response Sample.flickr =
  (Normal (),
   with_state Sample.flickr
     (assign (assign initial_state
        {[ "html" := JString ("<p><img src=" +:+ double_quote +:+ "https://example.com/a.jpg"
                              +:+ double_quote +:+ " alt=" +:+ double_quote +:+ "A photo"
                              +:+ double_quote +:+ " width=" +:+ double_quote +:+ "100%"
                              +:+ double_quote +:+ "/></p>");
           "type" := JString "photo";
           "providerNameSlug" := JString "flickr" ]})
        {[ "fetching" := JBool false ]}),
   [ SetState
       {[ "html" := JString ("<p><img src=" +:+ double_quote +:+ "https://example.com/a.jpg"
                             +:+ double_quote +:+ " alt=" +:+ double_quote +:+ "A photo"
                             +:+ double_quote +:+ " width=" +:+ double_quote +:+ "100%"
                             +:+ double_quote +:+ "/></p>");
          "type" := JString "photo";
          "providerNameSlug" := JString "flickr" ]};
     SetAttributes {[ "type" := JString "photo"; "providerNameSlug" := JString "flickr" ]};
     SetState {[ "fetching" := JBool false ]} ]).
Proof.
  apply (@onFulfilled_photo Reference.host "Flickr" (JString "https://flickr.com/photos/a/1")
           Sample.photo_response Sample.flickr);
    by vm_compute.
Defined.

(** C7 as stated fails.  For a photo without markup, on the reference
    host, no [setAttributes] call carries the synthesized markup: it
    goes to the state only. *)
Lemma onFulfilled_photo_markup_not_written :
  let run := @onFulfilled Reference.host "Flickr" (JString "https://flickr.com/photos/a/1")
               Sample.photo_response Sample.flickr in
  type_of Sample.photo_response = JString "photo" ∧
  truthy (html_of Sample.photo_response) = false ∧
  (∃ patch, SetState patch ∈ run.2 ∧
            get patch "html" = JString (@getPhotoHtml Reference.host Sample.photo_response)) ∧
  ¬ (∃ patch, SetAttributes patch ∈ run.2 ∧
              get patch "html" = JString (@getPhotoHtml Reference.host Sample.photo_response)).
Proof.
  cbv zeta. rewrite onFulfilled_photo_run. cbn [snd]. split_and!; [by vm_compute.. | |].
  - eexists. split; [apply list_elem_of_here | by vm_compute].
  - intros (patch & Hin & Hget).
    apply elem_of_cons in Hin as [[=]|Hin].
    apply elem_of_cons in Hin as [[= ->]|Hin]; [by vm_compute in Hget|].
    apply elem_of_cons in Hin as [[=]|Hin]. by apply elem_of_nil in Hin.
Qed.

(** ** The saved markup *)

(** The class names of the saved figure, for given attributes. *)
Lemma save_classes (align type providerNameSlug : jsval) :
  class_tokens
    (ClassMap (literal
       [ ("align" +:+ to_string align, align);
         ("is-type-" +:+ to_string type, type);
         ("is-provider-" +:+ to_string providerNameSlug, providerNameSlug) ])) =
  (if truthy align then [ "align" +:+ to_string align ] else [])
  ++ (if truthy type then [ "is-type-" +:+ to_string type ] else [])
  ++ (if truthy providerNameSlug then [ "is-provider-" +:+ to_string providerNameSlug ]
      else []).
Proof.
  assert (∀ x y, String.eqb ("align" +:+ x) ("is-type-" +:+ y) = false) as E1
    by reflexivity.
  assert (∀ x y, String.eqb ("align" +:+ x) ("is-provider-" +:+ y) = false) as E2
    by reflexivity.
  assert (∀ x y, String.eqb ("is-type-" +:+ x) ("is-provider-" +:+ y) = false) as E3
    by reflexivity.
  unfold class_tokens, literal. cbn [foldl oset fst snd]. rewrite E1.
  cbn [oset]. rewrite E2, E3.
  rewrite !filter_cons, filter_nil. cbn [snd].
  by destruct (truthy align), (truthy type), (truthy providerNameSlug).
Qed.

(** C8.  [save] returns [null] when the URL is falsy.  Otherwise it
    returns a [figure] whose class is ["wp-block-embed"] followed by
    [align<align>], [is-type-<type>] and [is-provider-<slug>], each
    present exactly when the attribute is set (truthy); whose first
    child is the URL between two newlines; and whose second child is
    a [figcaption] holding the caption when the caption is a
    non-empty array, and nothing otherwise. *)
Theorem save_contract (a : attributes) :
  (truthy (attr_url a) = false → save a = None) ∧
  (truthy (attr_url a) = true →
   let align := attr_align a in
   let type := attr_type a in
   let slug := attr_providerNameSlug a in
   let classes :=
     [ "wp-block-embed" ]
     ++ (if truthy align then [ "align" +:+ to_string align ] else [])
     ++ (if truthy type then [ "is-type-" +:+ to_string type ] else [])
     ++ (if truthy slug then [ "is-provider-" +:+ to_string slug ] else []) in
   ∃ caption,
     save a =
       Some (Elem "figure" [ ("className", PVal (JString (String.concat " " classes))) ]
               [ Text (newline +:+ to_string (attr_url a) +:+ newline); caption ]) ∧
     "wp-block-embed" ∈ classes ∧
     ("align" +:+ to_string align ∈ classes ↔ truthy align = true) ∧
     ("is-type-" +:+ to_string type ∈ classes ↔ truthy type = true) ∧
     ("is-provider-" +:+ to_string slug ∈ classes ↔ truthy slug = true) ∧
     match attr_caption a with
     | Some (c :: cs) => caption = Elem "figcaption" [] (c :: cs)
     | _ => caption = Empty
     end).
Proof.
  split; intros Hurl.
  - unfold save. by rewrite Hurl.
  - cbv zeta. eexists. split_and!.
    + unfold save, classnames. rewrite Hurl. cbn [negb fmap list_fmap concat].
      rewrite save_classes, app_nil_r. reflexivity.
    + left.
    + destruct (truthy (attr_align a)), (truthy (attr_type a)),
        (truthy (attr_providerNameSlug a)); cbn;
        rewrite ?elem_of_cons, ?elem_of_nil; split; intros; try done;
        intuition discriminate.
    + destruct (truthy (attr_align a)), (truthy (attr_type a)),
        (truthy (attr_providerNameSlug a)); cbn;
        rewrite ?elem_of_cons, ?elem_of_nil; split; intros; try done;
        intuition discriminate.
    + destruct (truthy (attr_align a)), (truthy (attr_type a)),
        (truthy (attr_providerNameSlug a)); cbn;
        rewrite ?elem_of_cons, ?elem_of_nil; split; intros; try done;
        intuition discriminate.
    + by destruct (attr_caption a) as [[|c cs]|].
Qed.

Lemma save_contract_witness :
  save {| attr_url := JString Sample.tweet;
          attr_caption := Some [ Text "A tweet" ];
          attr_align := JString "wide";
          attr_type := JString "rich";
          attr_providerNameSlug := JUndefined |} =
    Some (Elem "figure"
            [ ("className", PVal (JString "wp-block-embed alignwide is-type-rich")) ]
            [ Text (newline +:+ Sample.tweet +:+ newline);
              Elem "figcaption" [] [ Text "A tweet" ] ]).
Proof.
  destruct (proj2 (save_contract
              {| attr_url := JString Sample.tweet;
                 attr_caption := Some [ Text "A tweet" ];
                 attr_align := JString "wide";
                 attr_type := JString "rich";
                 attr_providerNameSlug := JUndefined |}) eq_refl)
    as (caption & Hsave & _ & _ & _ & _ & Hcaption).
  simpl in Hcaption. rewrite Hsave, Hcaption. reflexivity.
Defined.

(** ** The rendered views *)

Section Views.
Context `{Host}.
Variables (title icon : string).

(** C9, as amended.  [render] is a function of the state, the
    attributes, [isSelected] and [className].  Which view it returns
    depends on the state and the URL: the loading indicator when
    [fetching] is set; otherwise, when [html] is empty, the URL form,
    with the error message exactly when [error] is set; otherwise,
    for a URL string that parses with a host, the frame, which shows
    only a link when the host without a leading [www.] is on the
    denylist, else the markup raw when the type is ["wp-embed"], else
    the markup in a sandbox. *)
Theorem render_views (i : instance) :
  let state := this_state i in
  let url := attr_url (props_attributes (this_props i)) in
  (∀ i', this_state i' = state →
         props_attributes (this_props i') = props_attributes (this_props i) →
         props_isSelected (this_props i') = props_isSelected (this_props i) →
         props_className (this_props i') = props_className (this_props i) →
         render title icon i' = render title icon i) ∧
  (truthy (get state "fetching") = true → view_of title icon i = Some Loading) ∧
  (truthy (get state "fetching") = false → truthy (get state "html") = false →
   view_of title icon i = Some (UrlForm (truthy (get state "error")))) ∧
  (truthy (get state "fetching") = false → truthy (get state "html") = true →
   ∀ u host, url = JString u → url_host u = Some host →
   view_of title icon i =
     Some (Frame (if includes_array HOSTS_NO_PREVIEWS (strip_www host) then LinkOnly
                  else if strict_eq_string "wp-embed" (get state "type")
                       then RawMarkup (get state "html")
                       else Sandboxed (get state "html")))).
Proof.
  cbv zeta. split_and!.
  - intros i'. apply render_reads.
  - apply view_of_loading.
  - apply view_of_form.
  - intros Hf Hh u host. by apply view_of_frame.
Qed.

End Views.

Lemma render_views_witness :
  @view_of Reference.host "Embed" "embed-generic" Sample.generic_showing =
    Some (Frame (Sandboxed (JString "<p>A post</p>"))).
Proof.
  destruct (@render_views Reference.host "Embed" "embed-generic" Sample.generic_showing)
    as (_ & _ & _ & Hframe).
  by rewrite (Hframe eq_refl eq_refl Sample.elsewhere "example.com" eq_refl eq_refl).
Defined.

(** C9 as stated fails, on the reference host.  Two instances with the
    same state and the same attributes render differently, one being
    selected; a WordPress embed from a host on the denylist is shown
    as a link only, not as raw markup; and an instance that holds
    markup while its URL is absent gets no view at all: [render]
    throws. *)
Lemma render_not_as_stated :
  (this_state Sample.generic_selected = this_state Sample.generic_with_elsewhere ∧
   props_attributes (this_props Sample.generic_selected) =
     props_attributes (this_props Sample.generic_with_elsewhere) ∧
   @render Reference.host "Embed" "embed-generic" Sample.generic_selected ≠
     @render Reference.host "Embed" "embed-generic" Sample.generic_with_elsewhere) ∧
  (get (this_state Sample.wordpress_on_facebook) "type" = JString "wp-embed" ∧
   @view_of Reference.host "WordPress" "embed-post" Sample.wordpress_on_facebook =
     Some (Frame LinkOnly)) ∧
  (truthy (get (this_state Sample.markup_without_url) "fetching") = false ∧
   truthy (get (this_state Sample.markup_without_url) "html") = true ∧
   @render Reference.host "Embed" "embed-generic" Sample.markup_without_url =
     Throw TypeError).
Proof.
  split_and!; try (vm_compute; reflexivity).
  intros Heq.
  apply (f_equal (λ r, match r with Ok (Elem _ _ _ :: _) => true | _ => false end)) in Heq.
  vm_compute in Heq. discriminate Heq.
Qed.

(** ** The life of an instance: what holds while a request is in flight *)

Section LifeFacts.
Context `{Host}.
Variables (title icon : string) (patterns : list string).

(** [doServerSideRender] either leaves the instance as it is and sends
    nothing, or sets [error] and [fetching] and sends one request for
    the URL of the attributes. *)
Lemma doServerSideRender_cases (event : bool) (i : instance) :
  ∃ c i' l,
    doServerSideRender patterns event i = (c, i', l) ∧
    ((i' = i ∧ requests l = []) ∨
     (i' = with_state i (assign (this_state i)
                           {[ "error" := JBool false; "fetching" := JBool true ]}) ∧
      requests l = [ attr_url (props_attributes (this_props i)) ])).
Proof.
  unfold doServerSideRender.
  destruct event; run_method;
    destruct (matchesPatterns _ patterns) as [[|]|e]; cbn [negb andb orb];
    try destruct (findBlock _) as [matchingBlock|e];
    try destruct (negb (String.eqb "core-embed/wordpress" _));
    try destruct (negb (String.eqb "core/embed" matchingBlock));
    try destruct (negb (String.eqb _ matchingBlock));
    cbn [negb andb orb app]; eauto 10.
Qed.

(** The form is on screen only when nothing is being fetched and there
    is no markup. *)
Lemma shows_form_state (i : instance) :
  shows_form title icon i = true →
  truthy (get (this_state i) "fetching") = false ∧
  truthy (get (this_state i) "html") = false.
Proof.
  unfold shows_form, view_of, render.
  destruct (truthy (get (this_state i) "fetching")); [done|].
  destruct (truthy (get (this_state i) "html")); [|done]. cbn [negb].
  destruct (attr_url _) as [| |b|u]; try done.
  destruct (url_host u) as [host|]; [|done].
  destruct (includes_array HOSTS_NO_PREVIEWS (strip_www host)); [done|].
  by destruct (strict_eq_string "wp-embed" (get (this_state i) "type")).
Qed.

(** The continuations send no request. *)
Lemma onFulfilled_requests (url : jsval) (obj : object) (i : instance) :
  requests (onFulfilled title url obj i).2 = [].
Proof.
  destruct (this_unmounting i) eqn:Hu.
  - by rewrite onFulfilled_unmounted.
  - rewrite onFulfilled_mounted by done. cbv zeta.
    repeat match goal with |- context [if ?b then _ else _] => destruct b end; done.
Qed.

Lemma in_flight_run_doServerSideRender (event : bool) (w : world) :
  w_pending w = [] →
  truthy (get (this_state (w_instance w)) "html") = false →
  in_flight (run (doServerSideRender patterns event) w).
Proof.
  intros Hp Hh. unfold run, in_flight.
  destruct (doServerSideRender_cases event (w_instance w))
    as (c & i' & l & -> & [[-> Hl]|[-> Hl]]); cbn [w_pending w_instance]; rewrite Hp, Hl.
  - by left.
  - right. split; [eauto|]. cbn [with_state this_state]. by rewrite !get_assign.
Qed.

Lemma in_flight_mount (p : props) : in_flight (mount patterns p).
Proof.
  unfold mount, run, componentWillMount. run_method.
  cbn [w_instance constructor this_props].
  destruct (truthy (attr_url (props_attributes p))); [|by left].
  set (i1 := with_state _ _).
  pose proof (in_flight_run_doServerSideRender false
                {| w_instance := i1; w_pending := []; w_log := [] |} eq_refl eq_refl) as Hi.
  unfold run in Hi. cbn [w_instance w_pending w_log] in Hi.
  destruct (doServerSideRender patterns false i1) as [[c i'] l].
  by destruct c.
Qed.

Lemma in_flight_step (w w' : world) :
  step title icon patterns w w' → in_flight w → in_flight w'.
Proof.
  intros Hstep Hw. destruct Hstep as [w Hu Hform|w n url obj Hn|w n url Hn|w p Hu Hp|w Hu].
  - apply shows_form_state in Hform as [Hf Hh].
    apply in_flight_run_doServerSideRender; [|done].
    destruct Hw as [?|(_ & Hf' & _)]; [done | congruence].
  - left. unfold run. destruct (onFulfilled _ _ _ _) as [[c i'] l] eqn:Hrun.
    cbn [w_pending]. pose proof (onFulfilled_requests url obj (w_instance (settle n w))) as Hr.
    rewrite Hrun in Hr. cbn [snd] in Hr. rewrite Hr, app_nil_r. cbn [settle w_pending].
    destruct Hw as [Hp|[[url' Hp] _]]; rewrite Hp in Hn |- *; [done|].
    by destruct n as [|[|n]].
  - left. unfold run. rewrite onRejected_run. cbn [w_pending settle requests omap app].
    rewrite app_nil_r.
    destruct Hw as [Hp|[[url' Hp] _]]; rewrite Hp in Hn |- *; [done|].
    by destruct n as [|[|n]].
  - exact Hw.
  - unfold in_flight, run. cbn [componentWillUnmount w_pending w_instance this_state requests omap].
    by rewrite app_nil_r.
Qed.

Lemma in_flight_reachable (p : props) (w : world) :
  reachable title icon patterns p w → in_flight w.
Proof.
  unfold reachable. revert w. apply rtc_ind_r.
  - apply in_flight_mount.
  - intros w1 w2 _ Hstep IH. by eapply in_flight_step.
Qed.

End LifeFacts.

Section NothingToShow.
Context `{Host}.
Variables (title icon : string) (patterns : list string).

(** C10.  In the life of an instance, when a request in flight is
    fulfilled before the unmount by a response that carries no markup
    and whose type is not ["photo"]: the continuation makes one call,
    [setState( { fetching: false } )]; [error], [html] and [type] stay
    as they were in the state, and no attribute is written; [error] is
    not set; and what [render] returns next is the URL form without
    the error message. *)
Theorem onFulfilled_nothing_to_show (p : props) (w : world) (n : nat) (url : jsval)
    (obj : object) :
  reachable title icon patterns p w →
  w_pending w !! n = Some url →
  this_unmounting (w_instance w) = false →
  truthy (html_of obj) = false →
  type_of obj ≠ JString "photo" →
  let i := w_instance w in
  let w' := run (onFulfilled title url obj) (settle n w) in
  onFulfilled title url obj i =
    (Normal (),
     with_state i (assign (this_state i) {[ "fetching" := JBool false ]}),
     [ SetState {[ "fetching" := JBool false ]} ]) ∧
  step title icon patterns w w' ∧
  w_log w' = w_log w ++ [ SetState {[ "fetching" := JBool false ]} ] ∧
  get (this_state (w_instance w')) "error" = get (this_state i) "error" ∧
  get (this_state (w_instance w')) "html" = get (this_state i) "html" ∧
  get (this_state (w_instance w')) "type" = get (this_state i) "type" ∧
  truthy (get (this_state (w_instance w')) "error") = false ∧
  view_of title icon (w_instance w') = Some (UrlForm false).
Proof.
  intros Hreach Hn Hm Hhtml Htype i w'.
  assert (onFulfilled title url obj i =
    (Normal (),
     with_state i (assign (this_state i) {[ "fetching" := JBool false ]}),
     [ SetState {[ "fetching" := JBool false ]} ])) as Hrun.
  { rewrite (onFulfilled_mounted title url obj i Hm). cbv zeta.
    rewrite (includes_falsy _ Hhtml), Hhtml.
    assert (strict_eq_string "photo" (type_of obj) = false) as ->; [|done].
    destruct (type_of obj) as [| |b|s]; try done. unfold strict_eq_string.
    apply String.eqb_neq. congruence. }
  assert (this_state (w_instance w') = assign (this_state i) {[ "fetching" := JBool false ]}
          ∧ w_log w' = w_log w ++ [ SetState {[ "fetching" := JBool false ]} ]
          ∧ props_attributes (this_props (w_instance w')) = props_attributes (this_props i))
    as (Hstate & Hlog & Hattrs).
  { unfold w', run. change (w_instance (settle n w)) with i. by rewrite Hrun. }
  apply in_flight_reachable in Hreach as [Hp|(_ & _ & Herror & Hmarkup)].
  { by rewrite Hp in Hn. }
  fold i in Herror, Hmarkup.
  assert (get (this_state (w_instance w')) "error" = get (this_state i) "error") as Herror'
    by (by rewrite Hstate, get_assign).
  assert (get (this_state (w_instance w')) "html" = get (this_state i) "html") as Hmarkup'
    by (by rewrite Hstate, get_assign).
  split_and!.
  - done.
  - by apply step_fulfilled.
  - done.
  - done.
  - done.
  - by rewrite Hstate, get_assign.
  - by rewrite Herror'.
  - rewrite view_of_form.
    + by rewrite Herror', Herror.
    + by rewrite Hstate, get_assign.
    + by rewrite Hmarkup'.
Qed.

End NothingToShow.

Lemma onFulfilled_nothing_to_show_witness :
  @view_of Reference.host "Twitter" "embed-post"
    (w_instance
       (run (@onFulfilled Reference.host "Twitter" (JString Sample.tweet) ∅)
          (settle 0 (@mount Reference.host [ "^https?://(www.)?twitter.com/.+" ]
                       (Sample.props_of "core-embed/twitter" (JString Sample.tweet) false)))))
  = Some (UrlForm false).
Proof.
  apply (@onFulfilled_nothing_to_show Reference.host "Twitter" "embed-post"
           [ "^https?://(www.)?twitter.com/.+" ]
           (Sample.props_of "core-embed/twitter" (JString Sample.tweet) false)
           (@mount Reference.host [ "^https?://(www.)?twitter.com/.+" ]
              (Sample.props_of "core-embed/twitter" (JString Sample.tweet) false))
           0 (JString Sample.tweet) ∅).
  - apply rtc_refl.
  - by vm_compute.
  - by vm_compute.
  - by vm_compute.
  - by vm_compute.
Defined.

(** A life in which C4 fails, on the reference host: a Twitter block is
    mounted with the URL of a tweet and sends its request, is
    unmounted, and then the request is rejected; the rejection calls
    [setState] on the unmounted instance and sets [error]. *)
Lemma late_rejection :
  let patterns := [ "^https?://(www.)?twitter.com/.+" ] in
  let p := Sample.props_of "core-embed/twitter" (JString Sample.tweet) false in
  let w1 := run componentWillUnmount (@mount Reference.host patterns p) in
  let w2 := run onRejected (settle 0 w1) in
  @reachable Reference.host "Twitter" "embed-post" patterns p w2 ∧
  this_unmounting (w_instance w1) = true ∧
  w_log w2 = w_log w1 ++ [ SetState {[ "fetching" := JBool false; "error" := JBool true ]} ] ∧
  get (this_state (w_instance w1)) "error" = JBool false ∧
  get (this_state (w_instance w2)) "error" = JBool true.
Proof.
  cbv zeta. split_and!; [|vm_compute; reflexivity..].
  eapply rtc_l; [apply step_unmount; vm_compute; reflexivity|].
  eapply rtc_l; [|apply rtc_refl].
  apply (step_rejected _ _ _ _ 0 (JString Sample.tweet)). vm_compute. reflexivity.
Qed.

(** * Further properties *)

(** ** Registering and looking up *)

Lemma oget_oset_eq {V : Type} (o : ordered V) (k : string) (v : V) :
  oget (oset o k v) k = Some v.
Proof.
  induction o as [|[k' v'] o IH]; simpl.
  - by rewrite String.eqb_refl.
  - destruct (String.eqb_spec k' k) as [->|Hne]; simpl.
    + by rewrite String.eqb_refl.
    + by apply String.eqb_neq in Hne as ->.
Qed.

Lemma oget_oset_ne {V : Type} (o : ordered V) (k k' : string) (v : V) :
  k' ≠ k → oget (oset o k v) k' = oget o k'.
Proof.
  intros Hne.
  assert (String.eqb k k' = false) as Hb by (apply String.eqb_neq; congruence).
  induction o as [|[k0 v0] o IH]; simpl.
  - by rewrite Hb.
  - destruct (String.eqb_spec k0 k) as [->|Hk]; simpl.
    + by rewrite Hb.
    + by rewrite IH.
Qed.



(** The definitions an array of calls returns do not depend on the
    registry. *)
Lemma getEmbedBlockDefinitions_definitions (l : list definition_options) (reg : registry) :
  (getEmbedBlockDefinitions l reg).1 =
    (λ o, {| name := def_name o;
             settings := getEmbedBlockSettings (def_settings o) (def_patterns o) |}) <$> l.
Proof.
  revert reg. induction l as [|o l IH]; intros reg; [done|].
  cbn [getEmbedBlockDefinitions].
  destruct (getEmbedBlockDefinition o reg) as [d reg1] eqn:Hd.
  specialize (IH reg1). destruct (getEmbedBlockDefinitions l reg1) as [ds reg2].
  cbn [fst] in *. rewrite IH. unfold getEmbedBlockDefinition in Hd.
  injection Hd as <- _. done.
Qed.

(** Definitions of other names leave a name's patterns alone. *)
Lemma registered_oget_other (l : list definition_options) (reg : registry) (n : string) :
  n ∉ def_name <$> l → oget (registered l reg) n = oget reg n.
Proof.
  revert reg. induction l as [|o l IH]; intros reg Hn; [done|].
  rewrite fmap_cons, not_elem_of_cons in Hn. destruct Hn as [Hne Hn].
  rewrite registered_cons, IH by done. rewrite getEmbedBlockDefinition_registry.
  destruct (has_patterns o); [by apply oget_oset_ne | done].
Qed.

Lemma registered_consistent_from (l : list definition_options) (reg : registry)
    (d : block_definition) :
  NoDup (def_name <$> l) →
  d ∈ (getEmbedBlockDefinitions l reg).1 →
  settings_patterns (settings d) ≠ [] →
  oget (registered l reg) (name d) = Some (settings_patterns (settings d)).
Proof.
  revert reg. induction l as [|o l IH]; intros reg Hnd Hd Hp.
  - rewrite getEmbedBlockDefinitions_definitions in Hd. by apply elem_of_nil in Hd.
  - rewrite fmap_cons in Hnd. apply NoDup_cons in Hnd as [Hfresh Hnd].
    rewrite registered_cons.
    rewrite getEmbedBlockDefinitions_definitions, fmap_cons in Hd.
    apply elem_of_cons in Hd as [->|Hd].
    + cbn [name settings] in *. rewrite registered_oget_other by done.
      rewrite getEmbedBlockDefinition_registry. unfold has_patterns.
      unfold getEmbedBlockSettings in *. cbn [settings_patterns] in *.
      destruct (def_patterns o) as [[|p ps]|]; try done. apply oget_oset_eq.
    + apply IH; [done | | done]. by rewrite getEmbedBlockDefinitions_definitions.
Qed.

Lemma registered_entries_from (l : list definition_options) (reg0 : registry)
    (n : string) (pats : list string) :
  NoDup (def_name <$> l) →
  oget (registered l reg0) n = Some pats →
  oget reg0 n = Some pats ∨
  ∃ d, d ∈ (getEmbedBlockDefinitions l reg0).1 ∧ name d = n
       ∧ settings_patterns (settings d) = pats.
Proof.
  revert reg0. induction l as [|o l IH]; intros reg0 Hnd Hget; [by left|].
  rewrite fmap_cons in Hnd. apply NoDup_cons in Hnd as [Hfresh Hnd].
  rewrite registered_cons in Hget.
  rewrite getEmbedBlockDefinitions_definitions, fmap_cons.
  destruct (IH _ Hnd Hget) as [Hget1|(d & Hd & Hname & Hpats)].
  - rewrite getEmbedBlockDefinition_registry in Hget1. unfold has_patterns in Hget1.
    destruct (def_patterns o) as [[|p ps]|] eqn:Hp; try by left.
    destruct (decide (n = def_name o)) as [->|Hne].
    + rewrite oget_oset_eq in Hget1. injection Hget1 as <-. right.
      eexists. split; [left|]. done.
    + rewrite oget_oset_ne in Hget1 by done. by left.
  - right. exists d. split; [right|done].
    by rewrite getEmbedBlockDefinitions_definitions in Hd.
Qed.

(** X2.  When no two definitions share a name, the registry and the
    blocks agree: for every definition that comes with patterns, the
    registry holds under the block's name exactly the patterns the
    block's own [doServerSideRender] tests first; and every entry of
    the registry belongs to such a definition. *)
Theorem registered_consistent (l : list definition_options) :
  NoDup (def_name <$> l) →
  let definitions := (getEmbedBlockDefinitions l []).1 in
  let reg := registered l [] in
  (∀ d, d ∈ definitions → settings_patterns (settings d) ≠ [] →
        oget reg (name d) = Some (settings_patterns (settings d))) ∧
  (∀ n pats, oget reg n = Some pats →
             ∃ d, d ∈ definitions ∧ name d = n ∧ settings_patterns (settings d) = pats).
Proof.
  intros Hnd definitions reg. split.
  - intros d. by apply registered_consistent_from.
  - intros n pats Hget.
    by destruct (registered_entries_from l [] n pats Hnd Hget) as [?|?].
Qed.

Lemma distinct_NoDup (l : list string) : distinct l = true → NoDup l.
Proof.
  induction l as [|x l IH]; simpl; [intros _; apply NoDup_nil_2|].
  rewrite andb_true_iff, negb_true_iff. intros [Hx Hl].
  apply NoDup_cons. split; [|by apply IH].
  intros Hin. apply not_true_iff_false in Hx. apply Hx.
  apply existsb_exists. exists x. split; [by apply list_elem_of_In | apply String.eqb_refl].
Qed.

(** No two definitions of the module share a name. *)
Lemma module_names_NoDup : NoDup (def_name <$> common_options ++ others_options).
Proof. apply distinct_NoDup. vm_compute. reflexivity. Qed.

(** The blocks of the module, in the order of their definition. *)
Lemma module_definitions :
  common ++ others = (getEmbedBlockDefinitions (common_options ++ others_options) []).1.
Proof.
  unfold common, others, common_run, others_run.
  by rewrite !getEmbedBlockDefinitions_definitions, fmap_app.
Qed.

(** Every entry of the module's registry is the pattern list of the
    block of that name. *)
Lemma blockPatterns_definitions (n : string) (pats : list string) :
  oget blockPatterns n = Some pats →
  ∃ d, d ∈ common ++ others ∧ name d = n ∧ settings_patterns (settings d) = pats.
Proof.
  intros Hget. rewrite blockPatterns_registered in Hget. rewrite module_definitions.
  by destruct (registered_entries_from _ [] n pats module_names_NoDup Hget) as [?|?].
Qed.

Lemma registered_consistent_witness :
  ∃ d, d ∈ common ++ others ∧ name d = "core-embed/youtube" ∧
       settings_patterns (settings d) =
         [ "^https?://((m|www).)?youtube.com/.+"; "youtu.be/.+" ].
Proof.
  pose proof (registered_consistent (common_options ++ others_options) module_names_NoDup)
    as [_ Hentries].
  rewrite module_definitions. apply Hentries. vm_compute. reflexivity.
Defined.

(** ** More on the resolver *)

Section ResolverMore.
Context `{Host}.

Lemma matchesPatterns_non_string (url : jsval) (pats : list string) :
  (∀ u, url ≠ JString u) → pats ≠ [] → matchesPatterns url pats = Throw TypeError.
Proof.
  intros Hurl Hpats. destruct pats as [|p pats]; [done|]. simpl.
  destruct url as [| |b|u]; try done. by destruct (Hurl u).
Qed.

Lemma findBlock_in_non_string (reg : registry) (url : jsval) :
  (∀ u, url ≠ JString u) → (∀ n ps, (n, ps) ∈ reg → ps ≠ []) →
  findBlock_in reg url =
    match reg with
    | [] => Ok "core/embed"
    | _ :: _ => Throw TypeError
    end.
Proof.
  intros Hurl Hreg. destruct reg as [|[n ps] reg]; [done|].
  unfold findBlock_in. change (keys ((n, ps) :: reg)) with (n :: keys reg).
  cbn [findBlock_loop oget]. rewrite String.eqb_refl.
  rewrite matchesPatterns_non_string; [done | done |]. apply (Hreg n). left.
Qed.

Lemma findBlock_throws (url : jsval) :
  (∀ u, url ≠ JString u) → findBlock url = Throw TypeError.
Proof.
  intros Hurl. unfold findBlock. rewrite blockPatterns_registered.
  rewrite findBlock_in_non_string; [| done |].
  - by rewrite <- blockPatterns_registered.
  - apply registered_nonempty. intros ?? Hin. by apply elem_of_nil in Hin.
Qed.

(** X3.  A URL that is not a string: on a registry with at least one
    entry [findBlock] throws a [TypeError] (the first pattern is
    tried on a value without [match]); on the empty registry no
    pattern is tried and the generic name is returned.  The module's
    own [findBlock] throws. *)
Theorem findBlock_non_string (l : list definition_options) (url : jsval) :
  (∀ u, url ≠ JString u) →
  findBlock_in (registered l []) url =
    match registered l [] with
    | [] => Ok "core/embed"
    | _ :: _ => Throw TypeError
    end ∧
  findBlock url = Throw TypeError.
Proof.
  intros Hurl. split.
  - apply findBlock_in_non_string; [done|].
    apply registered_nonempty. intros ?? Hin. by apply elem_of_nil in Hin.
  - by apply findBlock_throws.
Qed.

Lemma findBlock_in_sound (reg : registry) (u n : string) :
  NoDup (keys reg) →
  findBlock_in reg (JString u) = Ok n →
  (∃ pats, oget reg n = Some pats ∧ matchesPatterns (JString u) pats = Ok true) ∨
  (n = "core/embed" ∧
   ∀ name pats, oget reg name = Some pats → matchesPatterns (JString u) pats = Ok false).
Proof.
  intros Hnd Hf.
  destruct (findBlock_in_scan reg u Hnd)
    as [(i & name & pats & Hi & Hm & _ & Hf')|[Hno Hf']];
    rewrite Hf in Hf'; injection Hf' as ->.
  - left. exists pats. split.
    + apply oget_NoDup; [done|]. by eapply list_elem_of_lookup_2.
    + rewrite matchesPatterns_string. f_equal. by apply existsb_some_match.
  - right. split; [done|]. intros name pats Hget.
    rewrite matchesPatterns_string. f_equal.
    apply existsb_no_match, (Hno name). by apply oget_elem_of.
Qed.

(** X4.  What [findBlock] returns for a URL string can be relied on:
    either a registered name whose own patterns match the URL, or the
    generic name with no registered pattern set matching the URL. *)
Theorem findBlock_sound (l : list definition_options) (u n : string) :
  findBlock_in (registered l []) (JString u) = Ok n →
  (∃ pats, oget (registered l []) n = Some pats ∧
           matchesPatterns (JString u) pats = Ok true) ∨
  (n = "core/embed" ∧
   ∀ name pats, oget (registered l []) name = Some pats →
                matchesPatterns (JString u) pats = Ok false).
Proof. apply findBlock_in_sound, registered_NoDup, NoDup_nil_2. Qed.

(** The same for the module's resolver. *)
Lemma findBlock_module_sound (u n : string) :
  findBlock (JString u) = Ok n →
  (∃ pats, oget blockPatterns n = Some pats ∧ matchesPatterns (JString u) pats = Ok true) ∨
  (n = "core/embed" ∧
   ∀ name pats, oget blockPatterns name = Some pats →
                matchesPatterns (JString u) pats = Ok false).
Proof.
  apply findBlock_in_sound. rewrite blockPatterns_registered.
  apply registered_NoDup, NoDup_nil_2.
Qed.

(** X5.  An entry is shadowed by an earlier one that has all its
    patterns: [findBlock] never returns its name, for any URL string. *)
Theorem findBlock_shadowed (l : list definition_options) (i j : nat)
    (n n' : string) (ps ps' : list string) (u : string) :
  let reg := registered l [] in
  j < i → reg !! j = Some (n', ps') → reg !! i = Some (n, ps) →
  ps ⊆ ps' → n ≠ "core/embed" →
  findBlock_in reg (JString u) ≠ Ok n.
Proof.
  intros reg Hji Hj Hi Hsub Hn Hf.
  assert (NoDup (keys reg)) as Hnd by apply registered_NoDup, NoDup_nil_2.
  destruct (findBlock_in_scan reg u Hnd)
    as [(i0 & name & pats & Hi0 & Hm & Hfirst & Hf')|[_ Hf']];
    rewrite Hf in Hf'; injection Hf' as ->; [|done].
  assert (i0 = i) as ->.
  { eapply NoDup_lookup; [exact Hnd | |]; unfold keys; rewrite list_lookup_fmap.
    - by rewrite Hi0.
    - by rewrite Hi. }
  rewrite Hi in Hi0. injection Hi0 as <-.
  destruct Hm as (p & Hp & Ht).
  specialize (Hfirst j n' ps' Hji Hj p (Hsub p Hp)). congruence.
Qed.

End ResolverMore.

Lemma findBlock_non_string_witness : @findBlock Reference.host JNull = Throw TypeError.
Proof.
  apply (@findBlock_non_string Reference.host [] JNull). discriminate.
Defined.

Lemma findBlock_sound_witness :
  ∃ pats, oget blockPatterns "core-embed/twitter" = Some pats ∧
          @matchesPatterns Reference.host (JString Sample.tweet) pats = Ok true.
Proof.
  assert (@findBlock_in Reference.host
            (registered (common_options ++ others_options) []) (JString Sample.tweet)
          = Ok "core-embed/twitter") as Hf by (vm_compute; reflexivity).
  destruct (@findBlock_sound Reference.host _ _ _ Hf) as [Hyes|[Hno _]].
  - by rewrite blockPatterns_registered.
  - discriminate Hno.
Defined.

(** The Polldaddy block has the pattern of the Mixcloud block, which
    is registered before it. *)
Lemma findBlock_shadowed_witness :
  @findBlock Reference.host (JString "https://www.mixcloud.com/a/b/")
    ≠ Ok "core-embed/polldaddy".
Proof.
  unfold findBlock. rewrite blockPatterns_registered.
  apply (@findBlock_shadowed Reference.host (common_options ++ others_options) 20 18
           "core-embed/polldaddy" "core-embed/mixcloud"
           [ "^https?://(www.)?mixcloud.com/.+" ] [ "^https?://(www.)?mixcloud.com/.+" ]).
  - lia.
  - vm_compute. reflexivity.
  - vm_compute. reflexivity.
  - done.
  - discriminate.
Defined.

(** ** More on entering the fetching state *)

Section FetchingMore.
Context `{Host}.

(** [doServerSideRender] on a URL string, as one case distinction. *)
Lemma doServerSideRender_string (patterns : list string) (event : bool) (i : instance)
    (u matchingBlock : string) :
  attr_url (props_attributes (this_props i)) = JString u →
  findBlock (JString u) = Ok matchingBlock →
  doServerSideRender patterns event i =
    if negb (existsb (λ p, regexp_test p "i" u) patterns)
       && negb (String.eqb "core-embed/wordpress" (props_name (this_props i)))
       && negb (String.eqb "core/embed" matchingBlock)
       && negb (String.eqb (props_name (this_props i)) matchingBlock)
    then (Normal (), i,
          (if event then [ PreventDefault ] else [])
          ++ [ OnReplace (createBlock matchingBlock {[ "url" := JString u ]}) ])
    else (Normal (),
          with_state i (assign (this_state i)
                          {[ "error" := JBool false; "fetching" := JBool true ]}),
          (if event then [ PreventDefault ] else [])
          ++ [ SetState {[ "error" := JBool false; "fetching" := JBool true ]};
               WpEmbedAPI (JString u) ]).
Proof.
  intros Hurl Hfind. unfold doServerSideRender.
  destruct event; run_method;
    rewrite Hurl, matchesPatterns_string, Hfind;
    destruct (existsb _ patterns),
      (String.eqb "core-embed/wordpress" _), (String.eqb "core/embed" matchingBlock),
      (String.eqb _ matchingBlock); reflexivity.
Qed.

Lemma doServerSideRender_throws (patterns : list string) (event : bool) (i : instance) :
  (∀ u, attr_url (props_attributes (this_props i)) ≠ JString u) →
  doServerSideRender patterns event i =
    (Thrown TypeError, i, if event then [ PreventDefault ] else []).
Proof.
  intros Hurl. unfold doServerSideRender.
  destruct patterns as [|p patterns].
  - destruct event; run_method; cbn [matchesPatterns];
      by rewrite (findBlock_throws _ Hurl).
  - destruct event; run_method;
      by rewrite (matchesPatterns_non_string _ (p :: patterns) Hurl).
Qed.

(** X6.  [doServerSideRender] with a URL attribute that is not a
    string (the form submitted empty, say): it throws a [TypeError],
    from the block's own patterns or from [findBlock], after
    [preventDefault] and before anything else: no state change, no
    request, no replacement. *)
Theorem doServerSideRender_non_string (patterns : list string) (event : bool)
    (i : instance) :
  (∀ u, attr_url (props_attributes (this_props i)) ≠ JString u) →
  doServerSideRender patterns event i =
    (Thrown TypeError, i, if event then [ PreventDefault ] else []) ∧
  this_state (doServerSideRender patterns event i).1.2 = this_state i ∧
  requests (doServerSideRender patterns event i).2 = [] ∧
  ¬ replaces (doServerSideRender patterns event i).
Proof.
  intros Hurl. rewrite (doServerSideRender_throws patterns event i Hurl).
  split_and!; [done | done | by destruct event |].
  intros [b Hb]. cbn [snd] in Hb. destruct event;
    repeat (apply elem_of_cons in Hb as [[=]|Hb]); by apply elem_of_nil in Hb.
Qed.

(** X7.  A replacement is final.  When [doServerSideRender] asks for
    the block to be replaced, the new block is one of the module's
    blocks and carries the same URL, and that block's own
    [doServerSideRender] on this URL does not ask for another
    replacement: its own patterns match, so it sets [fetching] and
    sends the request. *)
Theorem replacement_is_final (patterns : list string) (event : bool) (i : instance)
    (u : string) (b : block) :
  attr_url (props_attributes (this_props i)) = JString u →
  OnReplace b ∈ (doServerSideRender patterns event i).2 →
  block_attributes b = {[ "url" := JString u ]} ∧
  block_name b ≠ props_name (this_props i) ∧
  ∃ d, d ∈ common ++ others ∧ name d = block_name b ∧
       ∀ event' i',
         props_name (this_props i') = block_name b →
         attr_url (props_attributes (this_props i')) = JString u →
         doServerSideRender (settings_patterns (settings d)) event' i' =
           (Normal (),
            with_state i' (assign (this_state i')
                             {[ "error" := JBool false; "fetching" := JBool true ]}),
            (if event' then [ PreventDefault ] else [])
            ++ [ SetState {[ "error" := JBool false; "fetching" := JBool true ]};
                 WpEmbedAPI (JString u) ]).
Proof.
  intros Hurl Hin. destruct (findBlock_total u) as [matchingBlock Hfind].
  rewrite (doServerSideRender_string patterns event i u matchingBlock Hurl Hfind) in Hin.
  destruct (negb (existsb _ patterns) && _ && _ && _) eqn:Hcond; cycle 1.
  { cbn [snd] in Hin. destruct event; cbn [app] in Hin;
      repeat (apply elem_of_cons in Hin as [[=]|Hin]); by apply elem_of_nil in Hin. }
  assert (b = createBlock matchingBlock {[ "url" := JString u ]}) as ->.
  { cbn [snd] in Hin. destruct event; cbn [app] in Hin;
      repeat (apply elem_of_cons in Hin as [Heq|Hin]); try discriminate Heq;
      try (by apply elem_of_nil in Hin); by injection Heq. }
  cbn [block_name block_attributes].
  rewrite !andb_true_iff, !negb_true_iff, !String.eqb_neq in Hcond.
  destruct Hcond as [[[_ _] Hgeneric] Hother].
  split_and!; [done | congruence |].
  destruct (findBlock_module_sound u matchingBlock Hfind)
    as [(pats & Hget & Hmatch)|[-> _]]; [|done].
  destruct (blockPatterns_definitions matchingBlock pats Hget) as (d & Hd & Hname & Hpats).
  exists d. split_and!; [done | done |].
  intros event' i' Hname' Hurl'.
  rewrite (doServerSideRender_string _ event' i' u matchingBlock Hurl' Hfind).
  rewrite Hpats. rewrite matchesPatterns_string in Hmatch. injection Hmatch as ->.
  reflexivity.
Qed.

(** X8.  The WordPress block is never replaced: neither
    [doServerSideRender], whatever the URL and the patterns, nor a
    fulfilled request, whatever the response, asks for a replacement
    of a block named ["core-embed/wordpress"]. *)
Theorem wordpress_never_replaced (title : string) (patterns : list string) (event : bool)
    (url : jsval) (obj : object) (i : instance) :
  props_name (this_props i) = "core-embed/wordpress" →
  ¬ replaces (doServerSideRender patterns event i) ∧
  ¬ replaces (onFulfilled title url obj i).
Proof.
  intros Hname. split; intros [b Hb].
  - destruct (attr_url (props_attributes (this_props i))) as [| |flag|u] eqn:Hurl.
    1-3: rewrite doServerSideRender_throws in Hb by (rewrite Hurl; discriminate);
      cbn [snd] in Hb; destruct event;
      repeat (apply elem_of_cons in Hb as [[=]|Hb]); by apply elem_of_nil in Hb.
    destruct (findBlock_total u) as [matchingBlock Hfind].
    rewrite (doServerSideRender_string patterns event i u matchingBlock Hurl Hfind) in Hb.
    rewrite Hname, String.eqb_refl, andb_false_r in Hb. cbn [andb snd] in Hb.
    destruct event; cbn [app] in Hb;
      repeat (apply elem_of_cons in Hb as [[=]|Hb]); by apply elem_of_nil in Hb.
  - destruct (this_unmounting i) eqn:Hu.
    + rewrite onFulfilled_unmounted in Hb by done. by apply elem_of_nil in Hb.
    + rewrite onFulfilled_mounted in Hb by done. cbv zeta in Hb.
      rewrite Hname, String.eqb_refl in Hb.
      repeat match type of Hb with context [if ?c then _ else _] => destruct c end;
        cbn [snd] in Hb;
        repeat (apply elem_of_cons in Hb as [[=]|Hb]); by apply elem_of_nil in Hb.
Qed.

End FetchingMore.

Lemma doServerSideRender_non_string_witness :
  @doServerSideRender Reference.host [] true
    (constructor (Sample.props_of "core/embed" JUndefined false)) =
  (Thrown TypeError, constructor (Sample.props_of "core/embed" JUndefined false),
   [ PreventDefault ]).
Proof.
  apply (@doServerSideRender_non_string Reference.host [] true
           (constructor (Sample.props_of "core/embed" JUndefined false))).
  discriminate.
Defined.

Lemma replacement_is_final_witness :
  ∃ d, d ∈ common ++ others ∧ name d = "core-embed/twitter" ∧
       @doServerSideRender Reference.host (settings_patterns (settings d)) false
         (constructor (Sample.props_of "core-embed/twitter" (JString Sample.tweet) false)) =
         (Normal (),
          with_state
            (constructor (Sample.props_of "core-embed/twitter" (JString Sample.tweet) false))
            (assign initial_state {[ "error" := JBool false; "fetching" := JBool true ]}),
          [ SetState {[ "error" := JBool false; "fetching" := JBool true ]};
            WpEmbedAPI (JString Sample.tweet) ]).
Proof.
  destruct (@replacement_is_final Reference.host [] true Sample.generic_with_tweet
              Sample.tweet
              (createBlock "core-embed/twitter" {[ "url" := JString Sample.tweet ]})
              eq_refl)
    as (_ & _ & d & Hd & Hname & Hrun).
  { rewrite (proj1 doServerSideRender_samples).
    apply list_elem_of_further, list_elem_of_here. }
  exists d. split_and!; [exact Hd | exact Hname |].
  apply (Hrun false); reflexivity.
Defined.

Lemma wordpress_never_replaced_witness :
  ¬ replaces (@doServerSideRender Reference.host [] true Sample.wordpress_with_tweet).
Proof.
  apply (@wordpress_never_replaced Reference.host "WordPress" [] true (JString Sample.tweet)
           ∅ Sample.wordpress_with_tweet eq_refl).
Defined.

(** ** More on the continuations *)

Section ContinuationsMore.
Context `{Host}.
Variable title : string.

(** X9.  A request that settles on a mounted instance never leaves
    it loading: the rejected continuation ends with [fetching] false
    and [error] true, and the fulfilled one either only asks for the
    replacement by the WordPress block, leaving the state alone, or
    ends with [fetching] false and asks for no replacement.  Neither
    throws, and neither touches [error] on success. *)
Theorem settled_not_loading (url : jsval) (obj : object) (i : instance) :
  this_unmounting i = false →
  (∃ i', onRejected i = (Normal (), i', [ SetState {[ "fetching" := JBool false;
                                                      "error" := JBool true ]} ]) ∧
         get (this_state i') "fetching" = JBool false ∧
         get (this_state i') "error" = JBool true) ∧
  ((onFulfilled title url obj i =
      (Normal (), i, [ OnReplace (createBlock "core-embed/wordpress" {[ "url" := url ]}) ]) ∧
    includes (html_of obj) wp_embed_marker = true ∧
    props_name (this_props i) ≠ "core-embed/wordpress")
   ∨ (∃ i' l, onFulfilled title url obj i = (Normal (), i', l) ∧
              get (this_state i') "fetching" = JBool false ∧
              get (this_state i') "error" = get (this_state i) "error" ∧
              ¬ replaces (Normal (), i', l))).
Proof.
  intros Hm. split.
  - eexists. rewrite onRejected_run. split; [reflexivity|].
    cbn [with_state this_state]. by rewrite !get_assign.
  - rewrite (onFulfilled_mounted title url obj i Hm). cbv zeta.
    destruct (includes (html_of obj) wp_embed_marker) eqn:Hinc.
    + destruct (String.eqb_spec (props_name (this_props i)) "core-embed/wordpress")
        as [Hname|Hname]; [right | by left].
      do 2 eexists. split; [reflexivity|]. cbn [with_state this_state].
      split_and!; [by rewrite !get_assign.. |].
      intros [b Hb]. cbn [snd] in Hb.
      repeat (apply elem_of_cons in Hb as [[=]|Hb]). by apply elem_of_nil in Hb.
    + right. destruct (truthy (html_of obj)); [|destruct (strict_eq_string _ _)];
        do 2 eexists; (split; [reflexivity|]); cbn [with_state this_state];
        (split_and!; [by rewrite !get_assign.. |]);
        intros [b Hb]; cbn [snd] in Hb;
        repeat (apply elem_of_cons in Hb as [[=]|Hb]); by apply elem_of_nil in Hb.
Qed.

(** X10.  The attributes follow the state.  Whenever a fulfilled
    request writes attributes, it writes exactly [type] and
    [providerNameSlug], with the values it has just stored in the
    state, and it has stored markup as well; it writes them at most
    once. *)
Theorem attributes_follow_state (url : jsval) (obj : object) (i : instance)
    (patch : object) :
  SetAttributes patch ∈ (onFulfilled title url obj i).2 →
  let i' := (onFulfilled title url obj i).1.2 in
  dom patch = {[ "type"; "providerNameSlug" ]} ∧
  get patch "type" = get (this_state i') "type" ∧
  get patch "providerNameSlug" = get (this_state i') "providerNameSlug" ∧
  get (this_state i') "providerNameSlug" = JString (providerNameSlug_of title obj) ∧
  (get (this_state i') "html" = html_of obj ∨
   get (this_state i') "html" = JString (getPhotoHtml obj)) ∧
  (onFulfilled title url obj i).2 =
    [ SetState (<["html" := get (this_state i') "html"]> patch);
      SetAttributes patch;
      SetState {[ "fetching" := JBool false ]} ].
Proof.
  intros Hin. destruct (this_unmounting i) eqn:Hu.
  { rewrite onFulfilled_unmounted in Hin by done. by apply elem_of_nil in Hin. }
  revert Hin. rewrite (onFulfilled_mounted title url obj i Hu). cbv zeta.
  assert (∀ (html type : jsval) (slug : string) (state : object),
    SetAttributes patch ∈
      [ SetState {[ "html" := html; "type" := type; "providerNameSlug" := JString slug ]};
        SetAttributes {[ "type" := type; "providerNameSlug" := JString slug ]};
        SetState {[ "fetching" := JBool false ]} ] →
    let state' :=
      assign (assign state
                {[ "html" := html; "type" := type; "providerNameSlug" := JString slug ]})
             {[ "fetching" := JBool false ]} in
    dom patch = {[ "type"; "providerNameSlug" ]} ∧
    get patch "type" = get state' "type" ∧
    get patch "providerNameSlug" = get state' "providerNameSlug" ∧
    get state' "providerNameSlug" = JString slug ∧
    get state' "html" = html ∧
    [ SetState {[ "html" := html; "type" := type; "providerNameSlug" := JString slug ]};
      SetAttributes {[ "type" := type; "providerNameSlug" := JString slug ]};
      SetState {[ "fetching" := JBool false ]} ] =
    [ SetState (<["html" := get state' "html"]> patch);
      SetAttributes patch;
      SetState {[ "fetching" := JBool false ]} ]) as Hshown.
  { intros html type slug state Hin state'.
    apply elem_of_cons in Hin as [[=]|Hin].
    apply elem_of_cons in Hin as [[= ->]|Hin]; cycle 1.
    { apply elem_of_cons in Hin as [[=]|Hin]. by apply elem_of_nil in Hin. }
    unfold state'. rewrite !get_assign.
    split_and!; done. }
  destruct (includes (html_of obj) wp_embed_marker).
  - destruct (String.eqb _ "core-embed/wordpress"); cbn [fst snd with_state this_state].
    + intros Hin. destruct (Hshown _ _ _ (this_state i) Hin) as (?&?&?&?&?&?).
      split_and!; try done. by left.
    + intros Hin. apply elem_of_cons in Hin as [[=]|Hin]. by apply elem_of_nil in Hin.
  - destruct (truthy (html_of obj)); [|destruct (strict_eq_string _ _)];
      cbn [fst snd with_state this_state].
    + intros Hin. destruct (Hshown _ _ _ (this_state i) Hin) as (?&?&?&?&?&?).
      split_and!; try done. by left.
    + intros Hin. destruct (Hshown _ _ _ (this_state i) Hin) as (?&?&?&?&?&?).
      split_and!; try done. by right.
    + intros Hin. apply elem_of_cons in Hin as [[=]|Hin]. by apply elem_of_nil in Hin.
Qed.

End ContinuationsMore.

Lemma settled_not_loading_witness :
  ∃ i' l, @onFulfilled Reference.host "Twitter" (JString Sample.tweet) Sample.bare_response
            Sample.twitter_with_elsewhere = (Normal (), i', l) ∧
          get (this_state i') "fetching" = JBool false.
Proof.
  destruct (@settled_not_loading Reference.host "Twitter" (JString Sample.tweet)
              Sample.bare_response Sample.twitter_with_elsewhere eq_refl)
    as [_ [(_ & Hmarker & _)|(i' & l & Hrun & Hfetching & _)]].
  - vm_compute in Hmarker. discriminate Hmarker.
  - by exists i', l.
Defined.

Lemma attributes_follow_state_witness :
  dom ({[ "type" := JString "photo"; "providerNameSlug" := JString "flickr" ]} : object) =
    {[ "type"; "providerNameSlug" ]}.
Proof.
  apply (@attributes_follow_state Reference.host "Flickr"
           (JString "https://flickr.com/photos/a/1") Sample.photo_response Sample.flickr).
  rewrite onFulfilled_photo_run. apply list_elem_of_further, list_elem_of_here.
Defined.

(** ** More on the views and on the life of an instance *)

Section LifeMore.
Context `{Host}.
Variables (title icon : string) (patterns : list string).

(** X11.  When [render] throws.  It throws a [TypeError] exactly when
    nothing is being fetched, there is markup to show, and the URL
    attribute is not a string or parses without a host; in every other
    state it returns the controls and one view. *)
Theorem render_throws_iff (i : instance) :
  (render title icon i = Throw TypeError ↔
   truthy (get (this_state i) "fetching") = false ∧
   truthy (get (this_state i) "html") = true ∧
   ∀ u, attr_url (props_attributes (this_props i)) = JString u → url_host u = None) ∧
  (render title icon i ≠ Throw TypeError →
   ∃ controls shown, render title icon i = Ok [ controls; shown ]).
Proof.
  unfold render.
  destruct (truthy (get (this_state i) "fetching")).
  { split; [split; [discriminate | by intros [? _]] | eauto]. }
  destruct (truthy (get (this_state i) "html")); cbn [negb]; cycle 1.
  { split; [split; [discriminate | by intros (_ & ? & _)] | eauto]. }
  destruct (attr_url (props_attributes (this_props i))) as [| |b|u].
  1-3: split; [split; [by intros _; split_and! | done] | done].
  destruct (url_host u) as [host|] eqn:Hhost.
  - split; [split; [discriminate|] | eauto].
    intros (_ & _ & Hnone). specialize (Hnone u eq_refl). congruence.
  - split; [split; [|done] | done].
    intros _. split_and!; [done..|]. intros u' [= <-]. done.
Qed.

(** X12.  Requests do not overlap.  In every reachable state at most
    one request is in flight, and while it is, [fetching] is set,
    [error] is not, there is no markup, and [render] returns the
    loading indicator, so that the form cannot be submitted again. *)
Theorem one_request_in_flight (p : props) (w : world) :
  reachable title icon patterns p w →
  length (w_pending w) ≤ 1 ∧
  (w_pending w ≠ [] →
   truthy (get (this_state (w_instance w)) "fetching") = true ∧
   truthy (get (this_state (w_instance w)) "error") = false ∧
   truthy (get (this_state (w_instance w)) "html") = false ∧
   view_of title icon (w_instance w) = Some Loading ∧
   shows_form title icon (w_instance w) = false).
Proof.
  intros Hr. apply in_flight_reachable in Hr as [Hp|([url Hp] & Hf & He & Hh)].
  - rewrite Hp. split; [simpl; lia | done].
  - rewrite Hp. split; [simpl; lia|]. intros _.
    split_and!; [done.. | by apply view_of_loading |].
    unfold shows_form. by rewrite view_of_loading.
Qed.


(** X14.  Shown markup is final.  In every reachable state with
    markup in it, no request is in flight, and whatever happens next
    (new props, the unmount) changes neither the state nor the log:
    the form is gone, so no request is ever sent again. *)
Theorem shown_markup_is_final (p : props) (w : world) :
  reachable title icon patterns p w →
  truthy (get (this_state (w_instance w)) "html") = true →
  w_pending w = [] ∧
  ∀ w', step title icon patterns w w' →
        this_state (w_instance w') = this_state (w_instance w) ∧
        w_log w' = w_log w ∧
        w_pending w' = [].
Proof.
  intros Hr Hh.
  assert (w_pending w = []) as Hp.
  { apply in_flight_reachable in Hr as [?|(_ & _ & _ & Hh')]; [done | congruence]. }
  split; [done|]. intros w' Hstep.
  destruct Hstep as [w Hu Hform|w n url obj Hn|w n url Hn|w p' Hu Hp'|w Hu].
  - apply shows_form_state in Hform as [_ Hh']. congruence.
  - by rewrite Hp in Hn.
  - by rewrite Hp in Hn.
  - done.
  - unfold run. cbn. by rewrite Hp, app_nil_r.
Qed.

(** X15.  After the unmount.  Once [unmounting] is set it stays set,
    and the only thing that can still happen is that a request in
    flight settles: a fulfilled one does nothing at all, a rejected
    one calls [setState]; no request is sent, no attribute is
    written, no replacement is asked for. *)
Theorem unmounted_only_settles (w w' : world) :
  this_unmounting (w_instance w) = true →
  step title icon patterns w w' →
  this_unmounting (w_instance w') = true ∧
  this_props (w_instance w') = this_props (w_instance w) ∧
  length (w_pending w') < length (w_pending w) ∧
  ((w_log w' = w_log w ∧ w_instance w' = w_instance w) ∨
   w_log w' = w_log w ++ [ SetState {[ "fetching" := JBool false; "error" := JBool true ]} ]).
Proof.
  intros Hu Hstep.
  destruct Hstep as [w Hu' Hform|w n url obj Hn|w n url Hn|w p' Hu' Hp'|w Hu'];
    try congruence.
  - unfold run. rewrite onFulfilled_unmounted by done.
    cbn [w_instance w_pending w_log settle requests omap]. rewrite !app_nil_r.
    split_and!; [done | done | | by left].
    rewrite length_delete by eauto. apply lookup_lt_Some in Hn. lia.
  - unfold run. rewrite onRejected_run.
    cbn [w_instance w_pending w_log settle requests omap with_state this_unmounting
         this_props]. rewrite !app_nil_r.
    split_and!; [done | done | | by right].
    rewrite length_delete by eauto. apply lookup_lt_Some in Hn. lia.
Qed.

(** X16.  The first view.  A block mounted without a URL does
    nothing and shows the URL form without an error; a block mounted
    with a URL string shows the loading indicator, and has either sent
    the one request for that URL or asked to be replaced. *)
Theorem mount_view (p : props) :
  (truthy (attr_url (props_attributes p)) = false →
   mount patterns p = {| w_instance := constructor p; w_pending := []; w_log := [] |} ∧
   view_of title icon (constructor p) = Some (UrlForm false)) ∧
  (∀ u, attr_url (props_attributes p) = JString u → u ≠ "" →
   let w := mount patterns p in
   view_of title icon (w_instance w) = Some Loading ∧
   ((w_pending w = [ JString u ] ∧
     w_log w = [ SetState {[ "fetching" := JBool true ]};
                 SetState {[ "error" := JBool false; "fetching" := JBool true ]};
                 WpEmbedAPI (JString u) ])
    ∨ (w_pending w = [] ∧
       ∃ matchingBlock,
         w_log w = [ SetState {[ "fetching" := JBool true ]};
                     OnReplace (createBlock matchingBlock {[ "url" := JString u ]}) ]))).
Proof.
  split.
  - intros Hurl. split.
    + unfold mount, run, componentWillMount. run_method.
      cbn [w_instance constructor this_props]. by rewrite Hurl.
    + by rewrite view_of_form.
  - intros u Hurl Hne w.
    assert (truthy (attr_url (props_attributes p)) = true) as Htruthy.
    { rewrite Hurl. simpl. by apply negb_true_iff, String.eqb_neq. }
    destruct (findBlock_total u) as [matchingBlock Hfind].
    set (i1 := with_state (constructor p)
                 (assign initial_state {[ "fetching" := JBool true ]})).
    pose proof (doServerSideRender_string patterns false i1 u matchingBlock Hurl Hfind)
      as Hrun.
    assert (w = match doServerSideRender patterns false i1 with
                | (_, i2, l) =>
                    {| w_instance := i2;
                       w_pending := requests ([ SetState {[ "fetching" := JBool true ]} ] ++ l);
                       w_log := [ SetState {[ "fetching" := JBool true ]} ] ++ l |}
                end) as Hw.
    { unfold w, mount, run, componentWillMount. run_method.
      cbn [w_instance constructor this_props w_pending w_log]. rewrite Htruthy.
      change (with_state (constructor p)
                (assign (this_state (constructor p)) {[ "fetching" := JBool true ]}))
        with i1.
      destruct (doServerSideRender patterns false i1) as [[c i2] l]. by destruct c. }
    rewrite Hw, Hrun. clear Hw Hrun.
    destruct (negb (existsb _ patterns) && _ && _ && _); cbn [w_instance w_pending w_log].
    + split; [by apply view_of_loading|]. right. split; [done|]. by exists matchingBlock.
    + split; [|by left]. apply view_of_loading.
      cbn [with_state this_state]. by rewrite !get_assign.
Qed.

End LifeMore.

Lemma one_request_in_flight_witness :
  length (w_pending (@mount Reference.host [ "^https?://(www.)?twitter.com/.+" ]
                       (Sample.props_of "core-embed/twitter" (JString Sample.tweet) false)))
  ≤ 1.
Proof.
  apply (@one_request_in_flight Reference.host "Twitter" "embed-post"
           [ "^https?://(www.)?twitter.com/.+" ]
           (Sample.props_of "core-embed/twitter" (JString Sample.tweet) false)).
  apply rtc_refl.
Defined.


Lemma shown_markup_is_final_witness :
  w_pending
    (run (@onFulfilled Reference.host "Twitter" (JString Sample.tweet) Sample.bare_response)
       (settle 0 (@mount Reference.host [ "^https?://(www.)?twitter.com/.+" ]
                    (Sample.props_of "core-embed/twitter" (JString Sample.tweet) false))))
  = [].
Proof.
  apply (@shown_markup_is_final Reference.host "Twitter" "embed-post"
           [ "^https?://(www.)?twitter.com/.+" ]
           (Sample.props_of "core-embed/twitter" (JString Sample.tweet) false)).
  - eapply rtc_l; [|apply rtc_refl].
    apply (step_fulfilled _ _ _ _ 0 (JString Sample.tweet)). vm_compute. reflexivity.
  - vm_compute. reflexivity.
Defined.

Lemma unmounted_only_settles_witness :
  let w1 := run componentWillUnmount
              (@mount Reference.host [ "^https?://(www.)?twitter.com/.+" ]
                 (Sample.props_of "core-embed/twitter" (JString Sample.tweet) false)) in
  this_unmounting
    (w_instance (run (@onFulfilled Reference.host "Twitter" (JString Sample.tweet)
                        Sample.bare_response) (settle 0 w1))) = true.
Proof.
  cbv zeta.
  apply (@unmounted_only_settles Reference.host "Twitter" "embed-post"
           [ "^https?://(www.)?twitter.com/.+" ]
           (run componentWillUnmount
              (@mount Reference.host [ "^https?://(www.)?twitter.com/.+" ]
                 (Sample.props_of "core-embed/twitter" (JString Sample.tweet) false)))).
  - vm_compute. reflexivity.
  - apply (step_fulfilled _ _ _ _ 0 (JString Sample.tweet)). vm_compute. reflexivity.
Defined.

(** ** The raw transform *)

Lemma trim_start_app (pre s : list ascii) :
  forallb is_white_space pre = true → trim_start (pre ++ s) = trim_start s.
Proof.
  induction pre as [|c pre IH]; simpl; [done|].
  rewrite andb_true_iff. intros [-> Hpre]. by apply IH.
Qed.

Lemma trim_start_word (c : ascii) (s : list ascii) :
  is_white_space c = false → trim_start (c :: s) = c :: s.
Proof. intros Hc. simpl. by rewrite Hc. Qed.

(** What [trim_start] skips is white space, and what it leaves starts
    with something else. *)
Lemma trim_start_split (s : list ascii) :
  ∃ pre, s = pre ++ trim_start s ∧ forallb is_white_space pre = true.
Proof.
  induction s as [|c s (pre & Hs & Hpre)]; [by exists []|]. simpl.
  destruct (is_white_space c) eqn:Hc.
  - exists (c :: pre). simpl. rewrite Hc, Hpre. split; [by f_equal | done].
  - by exists [].
Qed.

Lemma after_word_split (s : list ascii) :
  ∃ w, s = w ++ after_word s ∧ forallb (λ c, negb (is_white_space c)) w = true.
Proof.
  induction s as [|c s (w & Hs & Hw)]; [by exists []|]. simpl.
  destruct (is_white_space c) eqn:Hc.
  - by exists [].
  - exists (c :: w). simpl. rewrite Hc, Hw. split; [by f_equal | done].
Qed.

Lemma after_word_app (w post : list ascii) :
  forallb (λ c, negb (is_white_space c)) w = true →
  forallb is_white_space post = true →
  after_word (w ++ post) = post.
Proof.
  intros Hw Hpost. induction w as [|c w IH]; simpl.
  - destruct post as [|c post]; [done|]. simpl in *.
    apply andb_true_iff in Hpost as [-> _]. done.
  - simpl in Hw. apply andb_true_iff in Hw as [Hc Hw].
    apply negb_true_iff in Hc. rewrite Hc. by apply IH.
Qed.

(** A piece of the pattern splits the input. *)
Lemma literal_ci_split (lit s r : list ascii) :
  literal_ci lit s = Some r →
  ∃ m, s = m ++ r ∧ literal_ci lit m = Some [] ∧ length m = length lit.
Proof.
  revert s. induction lit as [|x lit IH]; intros s; cbn [literal_ci].
  - intros [= ->]. by exists [].
  - destruct s as [|c s]; [done|].
    destruct (RegExp.same_char true x c) eqn:Hx; [|done].
    intros (m & -> & Hm & Hlen)%IH. exists (c :: m). cbn [literal_ci app length]. rewrite Hx.
    split_and!; [done | done | by f_equal].
Qed.

Lemma literal_ci_app (lit m r : list ascii) :
  literal_ci lit m = Some [] → literal_ci lit (m ++ r) = Some r.
Proof.
  revert m. induction lit as [|x lit IH]; intros m; cbn [literal_ci].
  - by intros [= ->].
  - destruct m as [|c m]; [done|]. cbn [literal_ci app].
    destruct (RegExp.same_char true x c); [apply IH | done].
Qed.

(** The characters of a matched piece, in upper case, are those of
    the pattern. *)
Lemma literal_ci_upper (lit m : list ascii) :
  literal_ci lit m = Some [] → RegExp.upper <$> m = RegExp.upper <$> lit.
Proof.
  revert m. induction lit as [|x lit IH]; intros m; cbn [literal_ci].
  - by intros [= ->].
  - destruct m as [|c m]; [done|].
    destruct (RegExp.same_char true x c) eqn:Hx; [|done].
    intros Hm%IH. rewrite !fmap_cons, Hm. f_equal.
    unfold RegExp.same_char in Hx. by apply Ascii.eqb_eq in Hx.
Qed.

(** No letter of the scheme, and neither the colon nor the slash,
    matches white space. *)
Lemma scheme_char_no_white_space (x c : ascii) :
  x ∈ list_ascii_of_string "https:/" →
  RegExp.same_char true x c = true → is_white_space c = false.
Proof.
  intros Hx. simpl in Hx.
  repeat (apply elem_of_cons in Hx as [->|Hx]); [..|by apply elem_of_nil in Hx];
    destruct c as [[] [] [] [] [] [] [] []]; vm_compute; congruence.
Qed.

Lemma literal_ci_no_white_space (lit m : list ascii) :
  lit ⊆ list_ascii_of_string "https:/" →
  literal_ci lit m = Some [] →
  forallb (λ c, negb (is_white_space c)) m = true.
Proof.
  revert m. induction lit as [|x lit IH]; intros m Hsub; cbn [literal_ci].
  - by intros [= ->].
  - destruct m as [|c m]; [done|].
    destruct (RegExp.same_char true x c) eqn:Hx; [|done]. intros Hm. cbn [forallb].
    rewrite (scheme_char_no_white_space x c); [| apply Hsub; left | done].
    apply IH; [|done]. intros y Hy. apply Hsub. by right.
Qed.

(** The scheme splits the input: what it matched is [http://] or
    [https://] in some case, without white space, and matches on its
    own. *)
Lemma scheme_ci_split (s r : list ascii) :
  scheme_ci s = Some r →
  ∃ scheme, s = scheme ++ r ∧
            scheme_ci scheme = Some [] ∧
            forallb (λ c, negb (is_white_space c)) scheme = true ∧
            (RegExp.upper <$> scheme = list_ascii_of_string "HTTP://" ∨
             RegExp.upper <$> scheme = list_ascii_of_string "HTTPS://").
Proof.
  unfold scheme_ci.
  destruct (literal_ci (list_ascii_of_string "http") s) as [s1|] eqn:H1; [|done].
  apply literal_ci_split in H1 as (m1 & -> & Hm1 & Hlen1).
  intros H2. apply literal_ci_split in H2 as (m2 & Hs1 & Hm2 & Hlen2).
  assert (forallb (λ c, negb (is_white_space c)) m1 = true) as Hw1.
  { eapply literal_ci_no_white_space; [|done]. intros x Hx. simpl in *.
    repeat (apply elem_of_cons in Hx as [->|Hx]); [..|by apply elem_of_nil in Hx];
      rewrite !elem_of_cons; tauto. }
  assert (forallb (λ c, negb (is_white_space c)) m2 = true) as Hw2.
  { eapply literal_ci_no_white_space; [|done]. intros x Hx. simpl in *.
    repeat (apply elem_of_cons in Hx as [->|Hx]); [..|by apply elem_of_nil in Hx];
      rewrite !elem_of_cons; tauto. }
  pose proof (literal_ci_upper _ _ Hm1) as Hu1.
  pose proof (literal_ci_upper _ _ Hm2) as Hu2.
  destruct m2 as [|c2 m2]; [done|].
  destruct s1 as [|c s1]; [done|]. unfold optional_ci in Hs1.
  destruct (RegExp.same_char true "s" c) eqn:Hc.
  - exists (m1 ++ c :: c2 :: m2). rewrite Hs1, <- app_assoc. split_and!.
    + done.
    + rewrite (literal_ci_app _ m1 _ Hm1). unfold optional_ci. rewrite Hc.
      by rewrite <- (app_nil_r (c2 :: m2)), (literal_ci_app _ _ [] Hm2).
    + rewrite forallb_app, Hw1. simpl.
      rewrite (scheme_char_no_white_space "s" c); [done | | done].
      simpl. rewrite !elem_of_cons. tauto.
    + right. rewrite fmap_app, fmap_cons, Hu1, Hu2.
      unfold RegExp.same_char in Hc. apply Ascii.eqb_eq in Hc. by rewrite <- Hc.
  - exists (m1 ++ c2 :: m2). rewrite <- app_assoc.
    assert (c :: s1 = (c2 :: m2) ++ r) as Hcs by done.
    injection Hcs as -> ->. split_and!.
    + done.
    + rewrite (literal_ci_app _ m1 _ Hm1). unfold optional_ci. rewrite Hc.
      by rewrite <- (app_nil_r (c2 :: m2)), (literal_ci_app _ _ [] Hm2).
    + by rewrite forallb_app, Hw1.
    + left. by rewrite fmap_app, Hu1, Hu2.
Qed.

Lemma scheme_ci_app (scheme r : list ascii) :
  scheme_ci scheme = Some [] → scheme_ci (scheme ++ r) = Some r.
Proof.
  unfold scheme_ci.
  destruct (literal_ci (list_ascii_of_string "http") scheme) as [s1|] eqn:H1; [|done].
  apply literal_ci_split in H1 as (m1 & -> & Hm1 & _). intros H2.
  rewrite <- app_assoc, (literal_ci_app _ m1 _ Hm1).
  destruct s1 as [|c s1]; [done|]. cbn [app optional_ci] in *.
  destruct (RegExp.same_char true "s" c).
  - apply literal_ci_split in H2 as (m2 & -> & Hm2 & _).
    rewrite app_nil_r. by apply literal_ci_app.
  - apply literal_ci_split in H2 as (m2 & Hcs & Hm2 & _).
    rewrite app_nil_r in Hcs. rewrite app_comm_cons, Hcs. by apply literal_ci_app.
Qed.

Lemma forallb_rev {A : Type} (f : A → bool) (l : list A) :
  forallb f (rev l) = forallb f l.
Proof.
  induction l as [|x l IH]; [done|]. simpl.
  rewrite forallb_app, IH. simpl. by rewrite andb_true_r, andb_comm.
Qed.

(** What [trim] leaves of a word between white space. *)
Lemma trim_list_word (pre core post : list ascii) :
  forallb is_white_space pre = true →
  forallb is_white_space post = true →
  forallb (λ c, negb (is_white_space c)) core = true →
  trim_list (pre ++ core ++ post) = core.
Proof.
  intros Hpre Hpost Hcore. unfold trim_list. rewrite trim_start_app by done.
  assert (∀ w s, forallb (λ c, negb (is_white_space c)) w = true →
                 w ≠ [] → trim_start (w ++ s) = w ++ s) as Hword.
  { intros [|c w] s Hw Hne; [done|]. simpl in *.
    apply andb_true_iff in Hw as [Hc _]. apply negb_true_iff in Hc. by rewrite Hc. }
  destruct (decide (core = [])) as [->|Hne].
  - simpl. rewrite <- (app_nil_r post), trim_start_app by done. done.
  - rewrite Hword by done. rewrite rev_app_distr.
    rewrite trim_start_app by (by rewrite forallb_rev).
    rewrite <- (app_nil_r (rev core)), Hword.
    + by rewrite app_nil_r, rev_involutive.
    + by rewrite forallb_rev.
    + intros Hr. apply Hne. by rewrite <- (rev_involutive core), Hr.
Qed.

(** The paragraphs the pattern accepts: white space, a scheme, a word,
    white space. *)
Lemma url_paragraph_list_split (s : list ascii) :
  url_paragraph_list s = true →
  ∃ pre scheme word post,
    s = pre ++ (scheme ++ word) ++ post ∧
    forallb is_white_space pre = true ∧
    forallb is_white_space post = true ∧
    scheme_ci scheme = Some [] ∧
    forallb (λ c, negb (is_white_space c)) scheme = true ∧
    (RegExp.upper <$> scheme = list_ascii_of_string "HTTP://" ∨
     RegExp.upper <$> scheme = list_ascii_of_string "HTTPS://") ∧
    word ≠ [] ∧
    forallb (λ c, negb (is_white_space c)) word = true.
Proof.
  unfold url_paragraph_list. intros Hs.
  destruct (trim_start_split s) as (pre & Hpre & Hws).
  destruct (scheme_ci (trim_start s)) as [[|c s']|] eqn:Hscheme; try done.
  apply andb_true_iff in Hs as [Hc Hpost].
  apply scheme_ci_split in Hscheme as (scheme & Hsplit & Hs1 & Hs2 & Hs3).
  destruct (after_word_split s') as (w & Hw & Hnw).
  exists pre, scheme, (c :: w), (after_word s').
  split_and!; try done.
  - rewrite Hpre at 1. rewrite Hsplit. rewrite Hw at 1.
    by rewrite <- !app_assoc.
  - simpl. by rewrite Hc, Hnw.
Qed.

Lemma url_paragraph_list_accepts (pre scheme word post : list ascii) :
  forallb is_white_space pre = true →
  forallb is_white_space post = true →
  scheme_ci scheme = Some [] →
  word ≠ [] →
  forallb (λ c, negb (is_white_space c)) word = true →
  url_paragraph_list (pre ++ (scheme ++ word) ++ post) = true.
Proof.
  intros Hpre Hpost Hscheme Hne Hword. unfold url_paragraph_list.
  rewrite trim_start_app by done.
  assert (trim_start ((scheme ++ word) ++ post) = (scheme ++ word) ++ post) as ->.
  { destruct (scheme_ci_split scheme [] Hscheme) as (scheme' & Heq & _ & Hnw & Hup).
    rewrite app_nil_r in Heq. subst scheme'.
    destruct scheme as [|c scheme]; [by destruct Hup|].
    simpl in *. apply andb_true_iff in Hnw as [Hc _].
    apply negb_true_iff in Hc. by rewrite Hc. }
  rewrite <- app_assoc, (scheme_ci_app _ _ Hscheme).
  destruct word as [|c w]; [done|]. simpl in *.
  apply andb_true_iff in Hword as [-> Hw]. simpl.
  by rewrite after_word_app, Hpost.
Qed.

Lemma list_ascii_of_string_app (s t : string) :
  list_ascii_of_string (s +:+ t) = list_ascii_of_string s ++ list_ascii_of_string t.
Proof. induction s as [|c s IH]; [done|]. simpl. by rewrite IH. Qed.

Lemma trim_list_of_string (s : string) :
  list_ascii_of_string (trim s) = trim_list (list_ascii_of_string s).
Proof. unfold trim. apply list_ascii_of_string_of_list_ascii. Qed.

(** X17.  What the raw transform makes of a paragraph.  When
    [isMatch] accepts a node, the node is a [P] and the block that
    [transform] creates is a generic embed whose URL is the text
    without the white space around it: [http://] or [https://] in
    some case followed by at least one character, without white space
    anywhere, and a paragraph with just this URL is accepted again. *)
Theorem raw_transform_url (node : dom_node) :
  raw_isMatch node = true →
  let url := trim (textContent node) in
  nodeName node = "P" ∧
  raw_transform node = createBlock "core/embed" {[ "url" := JString url ]} ∧
  (∃ scheme word,
     list_ascii_of_string url = scheme ++ word ∧
     (RegExp.upper <$> scheme = list_ascii_of_string "HTTP://" ∨
      RegExp.upper <$> scheme = list_ascii_of_string "HTTPS://") ∧
     word ≠ []) ∧
  forallb (λ c, negb (is_white_space c)) (list_ascii_of_string url) = true ∧
  trim url = url ∧
  raw_isMatch {| nodeName := "P"; textContent := url |} = true.
Proof.
  intros Hm url. unfold raw_isMatch in Hm.
  apply andb_true_iff in Hm as [Hname Hmatch]. apply String.eqb_eq in Hname.
  apply url_paragraph_list_split in Hmatch
    as (pre & scheme & word & post & Htext & Hpre & Hpost & Hscheme & Hnw & Hup & Hne & Hword).
  assert (list_ascii_of_string url = scheme ++ word) as Hurl.
  { unfold url. rewrite trim_list_of_string, Htext.
    apply trim_list_word; [done | done |]. by rewrite forallb_app, Hnw, Hword. }
  assert (trim_list (scheme ++ word) = scheme ++ word) as Htrim.
  { rewrite <- (app_nil_r (scheme ++ word)) at 1.
    apply (trim_list_word [] (scheme ++ word) []); [done | done |].
    by rewrite forallb_app, Hnw, Hword. }
  split_and!.
  - done.
  - done.
  - by exists scheme, word.
  - by rewrite Hurl, forallb_app, Hnw, Hword.
  - rewrite <- (string_of_list_ascii_of_string url) at 2.
    unfold trim at 1. by rewrite Hurl, Htrim.
  - unfold raw_isMatch. cbn [nodeName textContent]. rewrite String.eqb_refl. cbn [andb].
    unfold url_paragraph. rewrite Hurl.
    rewrite <- (app_nil_r (scheme ++ word)).
    by apply (url_paragraph_list_accepts [] scheme word []).
Qed.

(** X18.  Saved markup comes back.  For a URL that starts with
    [http://] or [https://], goes on, and has no white space, the text
    [save] puts into the figure (the URL on a line of its own), read
    as a paragraph, is accepted by the raw transform, which gives
    back a generic embed block with exactly this URL. *)
Theorem save_raw_round_trip (a : attributes) (u : string) :
  attr_url a = JString u →
  url_paragraph u = true →
  trim u = u →
  ∃ props text caption,
    save a = Some (Elem "figure" props [ Text text; caption ]) ∧
    raw_isMatch {| nodeName := "P"; textContent := text |} = true ∧
    raw_transform {| nodeName := "P"; textContent := text |} =
      createBlock "core/embed" {[ "url" := JString u ]}.
Proof.
  intros Hurl Hmatch Htrim.
  pose proof Hmatch as Hsplit. unfold url_paragraph in Hsplit.
  apply url_paragraph_list_split in Hsplit
    as (pre & scheme & word & post & Hu & Hpre & Hpost & Hscheme & Hnw & Hup & Hne & Hword).
  assert (list_ascii_of_string u = scheme ++ word) as Hcore.
  { rewrite <- Htrim at 1. rewrite trim_list_of_string, Hu.
    apply trim_list_word; [done | done |]. by rewrite forallb_app, Hnw, Hword. }
  assert (truthy (attr_url a) = true) as Htruthy.
  { rewrite Hurl. simpl. apply negb_true_iff, String.eqb_neq. intros ->.
    destruct scheme; [by destruct Hup | done]. }
  assert (list_ascii_of_string (newline +:+ u +:+ newline) =
          [ "010"%char ] ++ (scheme ++ word) ++ [ "010"%char ]) as Htext.
  { by rewrite !list_ascii_of_string_app, Hcore. }
  unfold save. rewrite Htruthy, Hurl. cbn [negb to_string].
  do 3 eexists. split; [reflexivity|]. split.
  - unfold raw_isMatch, url_paragraph. cbn [nodeName textContent].
    rewrite String.eqb_refl, Htext. cbn [andb].
    by apply url_paragraph_list_accepts.
  - unfold raw_transform. cbn [textContent]. do 2 f_equal.
    unfold trim. rewrite Htext, trim_list_word; [| done | done |].
    + by rewrite <- Hcore, string_of_list_ascii_of_string.
    + by rewrite forallb_app, Hnw, Hword.
Qed.

(** X19.  An alignment the editor wraps is an alignment that is
    saved.  When [getEditWrapperProps] returns props, they are the one
    prop [data-align] with the attribute's value, which is one of
    [left], [right], [wide] and [full]; and [save], if there is a URL,
    puts the class [align<value>] right after [wp-block-embed]. *)
Theorem wrapper_alignment_saved (a : attributes) (wrapper : ordered jsval) :
  getEditWrapperProps a = Some wrapper →
  ∃ align,
    attr_align a = JString align ∧
    align ∈ [ "left"; "right"; "wide"; "full" ] ∧
    wrapper = [ ("data-align", JString align) ] ∧
    (truthy (attr_url a) = true →
     ∃ classes children,
       save a =
         Some (Elem "figure"
                 [ ("className",
                    PVal (JString (String.concat " "
                      ("wp-block-embed" :: ("align" +:+ align) :: classes)))) ]
                 children)).
Proof.
  unfold getEditWrapperProps.
  destruct (attr_align a) as [| |b|align] eqn:Halign; try done.
  unfold strict_eq_string.
  destruct (_ || _ || _ || _) eqn:Hfour; [|done]. intros [= <-].
  exists align. split_and!; [done | | done |].
  - rewrite !orb_true_iff, !String.eqb_eq in Hfour.
    rewrite !elem_of_cons. destruct Hfour as [[[<-|<-]|<-]|<-]; tauto.
  - intros Hurl. unfold save, classnames. rewrite Hurl, Halign.
    cbn [negb fmap list_fmap concat]. rewrite save_classes, app_nil_r.
    assert (truthy (JString align) = true) as ->.
    { rewrite !orb_true_iff, !String.eqb_eq in Hfour.
      destruct Hfour as [[[<-|<-]|<-]|<-]; reflexivity. }
    cbn [class_tokens to_string app]. by do 2 eexists.
Qed.

Lemma raw_transform_url_witness :
  raw_transform {| nodeName := "P"; textContent := "  " +:+ Sample.tweet +:+ newline |} =
    createBlock "core/embed" {[ "url" := JString Sample.tweet ]}.
Proof.
  destruct (raw_transform_url
              {| nodeName := "P"; textContent := "  " +:+ Sample.tweet +:+ newline |})
    as (_ & Htransform & _); [vm_compute; reflexivity|].
  rewrite Htransform. vm_compute. reflexivity.
Defined.

Lemma save_raw_round_trip_witness :
  ∃ props text caption,
    save (Sample.attributes_of (JString Sample.tweet)) =
      Some (Elem "figure" props [ Text text; caption ]) ∧
    raw_isMatch {| nodeName := "P"; textContent := text |} = true ∧
    raw_transform {| nodeName := "P"; textContent := text |} =
      createBlock "core/embed" {[ "url" := JString Sample.tweet ]}.
Proof.
  apply (save_raw_round_trip (Sample.attributes_of (JString Sample.tweet)) Sample.tweet);
    vm_compute; reflexivity.
Defined.

Lemma wrapper_alignment_saved_witness :
  ∃ align, attr_align {| attr_url := JString Sample.tweet;
                         attr_caption := None;
                         attr_align := JString "wide";
                         attr_type := JUndefined;
                         attr_providerNameSlug := JUndefined |} = JString align ∧
           align ∈ [ "left"; "right"; "wide"; "full" ].
Proof.
  destruct (wrapper_alignment_saved
              {| attr_url := JString Sample.tweet;
                 attr_caption := None;
                 attr_align := JString "wide";
                 attr_type := JUndefined;
                 attr_providerNameSlug := JUndefined |}
              [ ("data-align", JString "wide") ] eq_refl)
    as (align & Halign & Hin & _).
  by exists align.
Defined.

(** ** Controls, caption and class of the frame *)

Section FrameDetails.
Context `{Host}.
Variables (title icon : string).

(** X20.  Whatever [render] returns, it is the controls and one view,
    and the controls are there exactly when the block is selected.
    In the frame, the caption editor is there exactly when the
    caption is a non-empty array or the block is selected, and the
    class of the figure is the [className] prop followed by
    [is-video] exactly when the type is ["video"]. *)
Theorem render_controls_and_caption (i : instance) (rendered : list node) :
  render title icon i = Ok rendered →
  ∃ controls shown,
    rendered = [ controls; shown ] ∧
    (controls = Empty ↔ props_isSelected (this_props i) = false) ∧
    (∀ body, view_of title icon i = Some (Frame body) →
     ∃ props first editor,
       shown = Elem "figure" props [ first; editor ] ∧
       (editor = Empty ↔
        (attr_caption (props_attributes (this_props i)) = None ∨
         attr_caption (props_attributes (this_props i)) = Some []) ∧
        props_isSelected (this_props i) = false) ∧
       oget props "className" =
         Some (PVal (JString (String.concat " "
           (class_tokens (ClassVal (props_className (this_props i)))
            ++ (if strict_eq_string "video" (get (this_state i) "type")
                then [ "is-video" ] else [])))))).
Proof.
  intros Hrender.
  assert (∀ (sel : bool) (x : node), (if sel then x else Empty) = Empty ↔ sel = false ∨ x = Empty)
    as Hsel by (intros [] x; intuition discriminate).
  destruct (truthy (get (this_state i) "fetching")) eqn:Hf.
  { revert Hrender. unfold render. rewrite Hf. intros [= <-]. do 2 eexists.
    split; [reflexivity|]. split.
    - rewrite Hsel. split; [by intros [?|?] | by left].
    - intros body. by rewrite view_of_loading. }
  destruct (truthy (get (this_state i) "html")) eqn:Hh; cycle 1.
  { revert Hrender. unfold render. rewrite Hf, Hh. cbn [negb]. intros [= <-]. do 2 eexists.
    split; [reflexivity|]. split.
    - rewrite Hsel. split; [by intros [?|?] | by left].
    - intros body. by rewrite view_of_form. }
  revert Hrender. unfold render. rewrite Hf, Hh. cbn [negb].
  destruct (attr_url (props_attributes (this_props i))) as [| |b|u]; try done.
  destruct (url_host u) as [host|]; [|done]. intros [= <-]. do 2 eexists.
  split; [reflexivity|]. split.
  - rewrite Hsel. split; [by intros [?|?] | by left].
  - intros body _. do 3 eexists. split; [reflexivity|]. split.
    + destruct (attr_caption (props_attributes (this_props i))) as [[|c cs]|],
        (props_isSelected (this_props i)); cbn [orb];
        intuition discriminate.
    + cbn [oget String.eqb]. unfold classnames, literal.
      cbn [foldl oset fst snd fmap list_fmap concat class_tokens].
      rewrite filter_cons, filter_nil. cbn [snd truthy].
      rewrite app_nil_r.
      by destruct (strict_eq_string "video" (get (this_state i) "type")).
Qed.

End FrameDetails.

Lemma render_controls_and_caption_witness :
  ∃ shown,
    @render Reference.host "Embed" "embed-generic" Sample.generic_showing =
      Ok [ Empty; shown ].
Proof.
  destruct (@render Reference.host "Embed" "embed-generic" Sample.generic_showing)
    as [rendered|e] eqn:Hrender; [|vm_compute in Hrender; discriminate Hrender].
  destruct (@render_controls_and_caption Reference.host "Embed" "embed-generic"
              Sample.generic_showing rendered Hrender)
    as (controls & shown & -> & Hcontrols & _).
  exists shown. by rewrite (proj2 Hcontrols eq_refl).
Defined.
